(** * Network endpoints of flow/network.cpp

    A shallow embedding of [IPAddress], [NetworkAddress] and
    [INetworkConnections::connect] from flow/network.cpp, together with
    models of the C library and Boost.Asio calls the file makes, and the
    properties of parsing, formatting, ordering and endpoint selection.

    Conventions.
    - A [std::string] is a list of characters; [c_str] is its prefix up to
      the first NUL, which is what every C interface ([sscanf], [strtol],
      [inet_pton]) sees.
    - A call either returns, throws, or has undefined behaviour
      ([outcome]).
    - [int] arithmetic wraps around in two's complement ([wrap_int]);
      [uint32_t] and [uint16_t] conversions reduce modulo [2^32], [2^16].
    - Sizes and indices ([size_t], and the [int] indices of [parseList])
      are natural numbers: strings are taken shorter than [2^31]. *)

From Stdlib Require Import String Ascii ZArith Bool List Lia.
Import ListNotations.
Local Open Scope Z_scope.

(** ** Outcomes *)

Inductive error : Set :=
| connection_string_invalid          (* flow's error for a malformed endpoint *)
| std_invalid_argument               (* std::invalid_argument *)
| std_out_of_range                   (* std::out_of_range *)
| boost_system_error                 (* boost::system::system_error *)
| flow_error (code : Z).             (* any other error carried by a Future *)

Inductive outcome (A : Type) : Type :=
| Returns (a : A)
| Throws (e : error)
| Undefined.

Arguments Returns {A} a.
Arguments Throws {A} e.
Arguments Undefined {A}.

Definition bind {A B : Type} (c : outcome A) (k : A -> outcome B) : outcome B :=
  match c with
  | Returns a => k a
  | Throws e => Throws e
  | Undefined => Undefined
  end.

Notation "x <- c ;; k" := (bind c (fun x => k))
  (at level 61, c at next level, right associativity).

(** [try { body } catch (...) { handler }] *)
Definition try_catch_all {A : Type} (body : outcome A) (handler : outcome A) : outcome A :=
  match body with
  | Throws _ => handler
  | r => r
  end.

(** ** std::string *)

Module Text.

Definition text : Set := list ascii.

(** String literals. *)
Definition txt (s : String.string) : text := String.list_ascii_of_string s.

Definition NUL : ascii := "000"%char.

(** [s.c_str()] as a C string: the characters before the first NUL. *)
Fixpoint c_str (s : text) : text :=
  match s with
  | [] => []
  | c :: s' => if Ascii.eqb c NUL then [] else c :: c_str s'
  end.

Fixpoint eqb (a b : text) : bool :=
  match a, b with
  | [], [] => true
  | x :: a', y :: b' => Ascii.eqb x y && eqb a' b'
  | _, _ => false
  end.

(** [strcmp(a, b) == 0] *)
Definition strcmp_eq (a b : text) : bool := eqb (c_str a) (c_str b).

(** [s[i]]: the terminating NUL is readable at [i = s.size()]. *)
Definition at_ (s : text) (i : nat) : ascii := nth i s NUL.

(** Index of the first [c] in [s], counted from [i]. *)
Fixpoint find_from (c : ascii) (s : text) (i : nat) : option nat :=
  match s with
  | [] => None
  | x :: s' => if Ascii.eqb x c then Some i else find_from c s' (S i)
  end.

(** [s.find_first_of(c, pos)]; [None] is [npos]. *)
Definition find_first_of (s : text) (c : ascii) (pos : nat) : option nat :=
  find_from c (skipn pos s) pos.

(** [s.substr(pos, n)] and [s.substr(pos)]. *)
Definition substr (s : text) (pos : nat) (n : option nat) : outcome text :=
  if (length s <? pos)%nat then Throws std_out_of_range
  else Returns (match n with
                | Some n => firstn n (skipn pos s)
                | None => skipn pos s
                end).

End Text.

Import Text.

(** ** The C library calls *)

Module LibC.

Definition INT_MIN : Z := - 2 ^ 31.
Definition INT_MAX : Z := 2 ^ 31 - 1.
Definition in_int_range (v : Z) : bool := (INT_MIN <=? v) && (v <=? INT_MAX).

Definition code (c : ascii) : Z := Z.of_nat (nat_of_ascii c).

Definition isspace (c : ascii) : bool :=
  (code c =? 32) || ((9 <=? code c) && (code c <=? 13)).

Definition isdigit (c : ascii) : bool := (48 <=? code c) && (code c <=? 57).

Definition digit_val (c : ascii) : Z := code c - 48.

Fixpoint skip_space (s : text) : text :=
  match s with
  | c :: s' => if isspace c then skip_space s' else s
  | [] => []
  end.

(** The longest run of decimal digits, accumulated left to right. *)
Fixpoint scan_digits (s : text) (acc : Z) : Z * text :=
  match s with
  | c :: s' => if isdigit c then scan_digits s' (acc * 10 + digit_val c) else (acc, s)
  | [] => (acc, [])
  end.

(** The subject sequence of [strtol(_, _, 10)] and of the [%d]
    conversion: white space, an optional sign, at least one digit.
    The value is not yet confined to a machine type. *)
Definition scan_integer (s : text) : option (Z * text) :=
  let s1 := skip_space s in
  let '(neg, s2) :=
    match s1 with
    | c :: r => if Ascii.eqb c "-" then (true, r)
                else if Ascii.eqb c "+" then (false, r)
                else (false, s1)
    | [] => (false, s1)
    end in
  match s2 with
  | c :: _ =>
      if isdigit c
      then let '(v, rest) := scan_digits s2 0 in
           Some (if neg then - v else v, rest)
      else None
  | [] => None
  end.

(** *** sscanf *)

Inductive directive : Set :=
| D_int                (* %d *)
| D_lit (c : ascii)    (* an ordinary character *)
| D_count.             (* %n *)

Definition EOF : Z := -1.

(** What a call leaves behind: the return value, the values assigned
    through the [%d] arguments in order, and the [%n] argument (its
    initial value when [%n] was not reached).  A [%d] whose value does
    not fit an [int] is undefined behaviour. *)
Inductive scanned : Set :=
| Scanned (ret : Z) (vals : list Z) (count : Z)
| ScanUndefined.

(** The return value on a failure: [EOF] for an input failure before the
    first conversion, otherwise the number of assignments so far. *)
Definition stop (input_failure : bool) (vals : list Z) : Z :=
  match vals with
  | [] => if input_failure then EOF else 0
  | _ => Z.of_nat (length vals)
  end.

Fixpoint sscanf_run (fmt : list directive) (total : nat) (rest : text)
         (vals : list Z) (count : Z) : scanned :=
  match fmt with
  | [] => Scanned (Z.of_nat (length vals)) vals count
  | D_int :: fmt' =>
      match scan_integer rest with
      | Some (v, rest') =>
          if in_int_range v
          then sscanf_run fmt' total rest' (vals ++ [v]) count
          else ScanUndefined
      | None =>
          Scanned (stop (match skip_space rest with [] => true | _ => false end) vals)
                  vals count
      end
  | D_lit c :: fmt' =>
      match rest with
      | c' :: rest' =>
          if Ascii.eqb c' c
          then sscanf_run fmt' total rest' vals count
          else Scanned (stop false vals) vals count
      | [] => Scanned (stop true vals) vals count
      end
  | D_count :: fmt' =>
      sscanf_run fmt' total rest vals (Z.of_nat (total - length rest))
  end.

(** [sscanf(str, fmt, ..., &count)] with [count] initialised to [count0]. *)
Definition sscanf (str : text) (fmt : list directive) (count0 : Z) : scanned :=
  sscanf_run fmt (length str) str [] count0.

(** *** printf conversions *)

Definition digit_char (d : Z) : ascii :=
  ascii_of_nat (Z.to_nat (if d <? 10 then 48 + d else 87 + d)).

(** The digits of [n >= 0] in [base], most significant first, in front
    of [acc]; [fuel] bounds the number of digits. *)
Fixpoint digits_fuel (fuel : nat) (base n : Z) (acc : text) : text :=
  match fuel with
  | O => acc
  | S f =>
      let acc' := digit_char (n mod base) :: acc in
      if n <? base then acc' else digits_fuel f base (n / base) acc'
  end.

Definition digits (base n : Z) : text :=
  digits_fuel (S (Z.to_nat (Z.log2 n))) base n [].

(** [%d] *)
Definition fmt_d (v : Z) : text :=
  if v <? 0 then "-"%char :: digits 10 (- v) else digits 10 v.

(** [%u] and [%x] of a non-negative value. *)
Definition fmt_u (v : Z) : text := digits 10 v.
Definition fmt_x (v : Z) : text := digits 16 v.

(** *** strtol as used by std::stoi

    [std::stoi(str)] runs [strtol(str.c_str(), &end, 10)], throws
    [std::invalid_argument] when nothing was converted and
    [std::out_of_range] when the value does not fit an [int].  Whatever
    follows the digits is left unread. *)
Definition stoi (str : text) : outcome Z :=
  match scan_integer (c_str str) with
  | None => Throws std_invalid_argument
  | Some (v, _) => if in_int_range v then Returns v else Throws std_out_of_range
  end.

(** *** inet_pton and inet_ntop

    The reference implementation the C library ships (resolv/inet_pton.c,
    resolv/inet_ntop.c).  A 16-byte buffer under construction is the list
    of bytes written so far; [tp] is its length. *)

Fixpoint inet_pton4_loop (src : text) (done : list Z) (cur : Z)
         (saw_digit : bool) (octets : Z) : option (list Z) :=
  match src with
  | [] => if octets <? 4 then None else Some (done ++ [cur])
  | ch :: src' =>
      if isdigit ch then
        let new := cur * 10 + digit_val ch in
        if saw_digit && (cur =? 0) then None
        else if new >? 255 then None
        else if negb saw_digit
             then if octets + 1 >? 4 then None
                  else inet_pton4_loop src' done new true (octets + 1)
             else inet_pton4_loop src' done new saw_digit octets
      else if Ascii.eqb ch "." && saw_digit then
        if octets =? 4 then None
        else inet_pton4_loop src' (done ++ [cur]) 0 false octets
      else None
  end.

Definition inet_pton4 (src : text) : option (list Z) :=
  inet_pton4_loop src [] 0 false 0.

Definition hex_digit_value (c : ascii) : option Z :=
  let n := code c in
  if (48 <=? n) && (n <=? 57) then Some (n - 48)
  else if (97 <=? n) && (n <=? 102) then Some (n - 87)
  else if (65 <=? n) && (n <=? 70) then Some (n - 55)
  else None.

(** The two bytes of a 16-bit group, high byte first. *)
Definition group_bytes (val : Z) : list Z :=
  [Z.land (Z.shiftr val 8) 255; Z.land val 255].

(** The part of [inet_pton6] after its loop: store a pending group,
    expand the [::] at [colonp] with zeros, and require a full buffer. *)
Definition inet_pton6_finish (tmp : list Z) (colonp : option nat)
           (xdigits_seen : nat) (val : Z) : option (list Z) :=
  match (if (0 <? xdigits_seen)%nat
         then if (16 <? length tmp + 2)%nat then None
              else Some (tmp ++ group_bytes val)
         else Some tmp) with
  | None => None
  | Some tmp1 =>
      match colonp with
      | Some cp =>
          if (length tmp1 =? 16)%nat then None
          else Some (firstn cp tmp1 ++ repeat 0 (16 - length tmp1) ++ skipn cp tmp1)
      | None => if (length tmp1 =? 16)%nat then Some tmp1 else None
      end
  end.

Fixpoint inet_pton6_loop (src curtok : text) (tmp : list Z) (colonp : option nat)
         (xdigits_seen : nat) (val : Z) : option (list Z) :=
  match src with
  | [] => inet_pton6_finish tmp colonp xdigits_seen val
  | ch :: src' =>
      match hex_digit_value ch with
      | Some digit =>
          if (xdigits_seen =? 4)%nat then None
          else
            let val' := Z.lor (Z.shiftl val 4) digit in
            if val' >? 65535 then None
            else inet_pton6_loop src' curtok tmp colonp (S xdigits_seen) val'
      | None =>
          if Ascii.eqb ch ":" then
            if (xdigits_seen =? 0)%nat then
              match colonp with
              | Some _ => None
              | None => inet_pton6_loop src' src' tmp (Some (length tmp)) xdigits_seen val
              end
            else
              match src' with
              | [] => None
              | _ :: _ =>
                  if (16 <? length tmp + 2)%nat then None
                  else inet_pton6_loop src' src' (tmp ++ group_bytes val) colonp 0 0
              end
          else if Ascii.eqb ch "." && (length tmp + 4 <=? 16)%nat then
            match inet_pton4 curtok with
            | Some quad => inet_pton6_finish (tmp ++ quad) colonp 0 val
            | None => None
            end
          else None
      end
  end.

Definition inet_pton6 (src : text) : option (list Z) :=
  match src with
  | [] => None
  | c :: src1 =>
      if Ascii.eqb c ":" then
        match src1 with
        | c2 :: _ =>
            if Ascii.eqb c2 ":" then inet_pton6_loop src1 src1 [] None 0 0 else None
        | [] => None
        end
      else inet_pton6_loop src src [] None 0 0
  end.

(** [inet_ntop4]: "%u.%u.%u.%u" of four bytes. *)
Definition inet_ntop4 (src : list Z) : text :=
  fmt_u (nth 0 src 0) ++ "."%char :: fmt_u (nth 1 src 0) ++ "."%char ::
  fmt_u (nth 2 src 0) ++ "."%char :: fmt_u (nth 3 src 0).

Fixpoint words_of (src : list Z) : list Z :=
  match src with
  | hi :: lo :: r => Z.lor (Z.shiftl hi 8) lo :: words_of r
  | _ => []
  end.

(** A run of zero words; [base = -1] when there is none. *)
Record run : Set := { base : Z; len : Z }.

Definition longer (best cur : run) : run :=
  if (base best =? -1) || (len cur >? len best) then cur else best.

Fixpoint find_run_loop (ws : list Z) (i : Z) (best cur : run) : run * run :=
  match ws with
  | [] => (best, cur)
  | w :: ws' =>
      if w =? 0 then
        if base cur =? -1
        then find_run_loop ws' (i + 1) best {| base := i; len := 1 |}
        else find_run_loop ws' (i + 1) best {| base := base cur; len := len cur + 1 |}
      else
        if negb (base cur =? -1)
        then find_run_loop ws' (i + 1) (longer best cur) {| base := -1; len := len cur |}
        else find_run_loop ws' (i + 1) best cur
  end.

Definition best_run (words : list Z) : run :=
  let '(best, cur) :=
    find_run_loop words 0 {| base := -1; len := 0 |} {| base := -1; len := 0 |} in
  let best := if negb (base cur =? -1) then longer best cur else best in
  if negb (base best =? -1) && (len best <? 2)
  then {| base := -1; len := len best |}
  else best.

Definition in_run (best : run) (i : Z) : bool :=
  negb (base best =? -1) && (base best <=? i) && (i <? base best + len best).

Definition encapsulated_v4 (best : run) (words : list Z) (i : Z) : bool :=
  (i =? 6) && (base best =? 0) &&
  ((len best =? 6) || ((len best =? 5) && (nth 5 words 0 =? 65535))).

(** The output loop of [inet_ntop6], from word [i] on. *)
Fixpoint inet_ntop6_loop (src words rest : list Z) (best : run) (i : Z) : text :=
  match rest with
  | [] => []
  | w :: rest' =>
      if in_run best i then
        (if i =? base best then [":"%char] else [])
          ++ inet_ntop6_loop src words rest' best (i + 1)
      else
        (if negb (i =? 0) then [":"%char] else [])
          ++ (if encapsulated_v4 best words i
              then inet_ntop4 (skipn 12 src)
              else fmt_x w ++ inet_ntop6_loop src words rest' best (i + 1))
  end.

Definition inet_ntop6 (src : list Z) : text :=
  let words := words_of src in
  let best := best_run words in
  inet_ntop6_loop src words words best 0
    ++ (if negb (base best =? -1) && (base best + len best =? 8) then [":"%char] else []).

End LibC.

Import LibC.

(** ** Boost.Asio addresses *)

Module Asio.

(** [boost::asio::ip::address]; the scope id of a v6 address is left
    out, [IPAddress::parse] keeps [to_bytes()] only. *)
Inductive address : Set :=
| address_v4 (ulong : Z)
| address_v6 (bytes : list Z).

Definition is_v6 (a : address) : bool :=
  match a with address_v6 _ => true | address_v4 _ => false end.

(** The text in front of a ["%scope"] suffix. *)
Fixpoint before_percent (s : text) : text :=
  match s with
  | [] => []
  | c :: s' => if Ascii.eqb c "%" then [] else c :: before_percent s'
  end.

Definition make_address_v6 (str : text) : option (list Z) :=
  inet_pton6 (before_percent str).

(** [address_v4::to_ulong] of the parsed bytes: host byte order. *)
Definition make_address_v4 (str : text) : option Z :=
  match inet_pton4 str with
  | Some [a; b; c; d] =>
      Some (Z.lor (Z.lor (Z.lor (Z.shiftl a 24) (Z.shiftl b 16)) (Z.shiftl c 8)) d)
  | _ => None
  end.

(** [address::from_string(str)]: v6 first, then v4, else it throws. *)
Definition from_string (str : text) : outcome address :=
  let s := c_str str in
  match make_address_v6 s with
  | Some bytes => Returns (address_v6 bytes)
  | None =>
      match make_address_v4 s with
      | Some ulong => Returns (address_v4 ulong)
      | None => Throws boost_system_error
      end
  end.

(** [address_v6(bytes).to_string()], scope id 0. *)
Definition v6_to_string (bytes : list Z) : text := inet_ntop6 bytes.

End Asio.

(** ** Machine integers *)

Definition wrap_int (x : Z) : Z := (x + 2 ^ 31) mod 2 ^ 32 - 2 ^ 31.
Definition to_uint32 (x : Z) : Z := x mod 2 ^ 32.
Definition to_uint16 (x : Z) : Z := x mod 2 ^ 16.

(** [int] addition and left shift. *)
Definition int_add (x y : Z) : Z := wrap_int (x + y).
Definition int_shl (x n : Z) : Z := wrap_int (Z.shiftl x n).

(** ** IPAddress *)

Module IPAddress.

(** [store] is the 16-byte [IPAddressStore]. *)
Record t : Set := { store : list Z; isV6addr : bool }.

(** [parts[0] = v4addr] through a [uint32_t*] into [store]: the four
    bytes in host order, least significant first. *)
Definition write_uint32 (v : Z) (store : list Z) : list Z :=
  [Z.land v 255; Z.land (Z.shiftr v 8) 255;
   Z.land (Z.shiftr v 16) 255; Z.land (Z.shiftr v 24) 255] ++ skipn 4 store.

(** [parts[0]] read back. *)
Definition read_uint32 (store : list Z) : Z :=
  nth 0 store 0 + Z.shiftl (nth 1 store 0) 8
  + Z.shiftl (nth 2 store 0) 16 + Z.shiftl (nth 3 store 0) 24.

(** [IPAddress()] *)
Definition default : t := {| store := repeat 0 16; isV6addr := false |}.

(** [IPAddress(const IPAddressStore& v6addr)] *)
Definition of_store (v6addr : list Z) : t := {| store := v6addr; isV6addr := true |}.

(** [IPAddress(uint32_t v4addr)] *)
Definition of_uint32 (v4addr : Z) : t :=
  {| store := write_uint32 v4addr (repeat 0 16); isV6addr := false |}.

(** Modelled from the spec: the accessor is declared in flow/network.h,
    not among the sources; by the spec [isV6()] is the stored family
    discriminant. *)
Definition isV6 (a : t) : bool := isV6addr a.

Definition toV4 (a : t) : Z := read_uint32 (store a).

Fixpoint store_eqb (x y : list Z) : bool :=
  match x, y with
  | [], [] => true
  | a :: x', b :: y' => (a =? b) && store_eqb x' y'
  | _, _ => false
  end.

(** [std::array]'s [operator<]: lexicographic. *)
Fixpoint store_ltb (x y : list Z) : bool :=
  match x, y with
  | _, [] => false
  | [], _ :: _ => true
  | a :: x', b :: y' => (a <? b) || ((a =? b) && store_ltb x' y')
  end.

(** [bool < bool] *)
Definition bool_ltb (x y : bool) : bool := negb x && y.

(** [operator==] *)
Definition eqb (a addr : t) : bool :=
  Bool.eqb (isV6addr a) (isV6addr addr) && store_eqb (store a) (store addr).

(** [operator!=] *)
Definition neqb (a addr : t) : bool := negb (eqb a addr).

(** [operator<] *)
Definition ltb (a addr : t) : bool :=
  if Bool.eqb (isV6 a) (isV6 addr)
  then store_ltb (store a) (store addr)
  else bool_ltb (isV6 a) (isV6 addr).

Definition toString (a : t) : text :=
  if isV6 a then Asio.v6_to_string (store a)
  else
    let ip := toV4 a in
    fmt_d (Z.land (Z.shiftr ip 24) 255) ++ "."%char ::
    fmt_d (Z.land (Z.shiftr ip 16) 255) ++ "."%char ::
    fmt_d (Z.land (Z.shiftr ip 8) 255) ++ "."%char ::
    fmt_d (Z.land ip 255).

Definition parse (str : text) : outcome (option t) :=
  try_catch_all
    (addr <- Asio.from_string str ;;
     Returns (Some (match addr with
                    | Asio.address_v6 bytes => of_store bytes
                    | Asio.address_v4 ulong => of_uint32 ulong
                    end)))
    (Returns None).

Definition isValid (a : t) : bool :=
  if negb (isV6 a) then negb (toV4 a =? 0)
  else existsb (fun part => part >? 0) (store a).

End IPAddress.

(** ** NetworkAddress *)

Module NetworkAddress.

(** Modelled from the spec: the declaration of [NetworkAddress]
    (flow/network.h) is not among the sources.  The spec gives it an
    [IPAddress], a 16-bit port and a flags bit field with a TLS bit, the
    accessors [isV6()] and [isTLS()], and structural equality; the
    constructors take [(address, port, isPublic, isTLS)] as [parse] calls
    them.  The flag values are those of flow/network.h. *)
Record t : Set := { ip : IPAddress.t; port : Z; flags : Z }.

(** Modelled from the spec: the named bits of the flags field, with the
    values flow/network.h gives them. *)
Definition FLAG_PRIVATE : Z := 1.
Definition FLAG_TLS : Z := 2.

(** Modelled from the spec:
    [NetworkAddress(const IPAddress&, uint16_t port, bool isPublic, bool isTLS)].
    The port parameter is the unsigned 16-bit port of the spec: an [int]
    argument is converted at the call, see [to_uint16] in [parse]. *)
Definition make (address : IPAddress.t) (port : Z) (isPublic isTLS : bool) : t :=
  {| ip := address;
     port := port;
     flags := Z.lor (if isPublic then 0 else FLAG_PRIVATE) (if isTLS then FLAG_TLS else 0) |}.

(** Modelled from the spec:
    [NetworkAddress(uint32_t ip, uint16_t port, bool isPublic, bool isTLS)]. *)
Definition make_v4 (ip : Z) (port : Z) (isPublic isTLS : bool) : t :=
  make (IPAddress.of_uint32 ip) port isPublic isTLS.

(** Modelled from the spec: the derived accessors [isV6()] and [isTLS()]. *)
Definition isV6 (a : t) : bool := IPAddress.isV6 (ip a).
Definition isTLS (a : t) : bool := negb (Z.land (flags a) FLAG_TLS =? 0).

(** Modelled from the spec: [operator==], structural over address, port
    and flags. *)
Definition eqb (a r : t) : bool :=
  IPAddress.eqb (ip a) (ip r) && (port a =? port r) && (flags a =? flags r).

(** The format of ["%d.%d.%d.%d:%d%n"]. *)
Definition dotted_quad_format : list directive :=
  [D_int; D_lit "."; D_int; D_lit "."; D_int; D_lit "."; D_int; D_lit ":"; D_int; D_count].

(** Whether [s] has the [":tls"] suffix on something non-empty. *)
Definition has_tls_suffix (s : text) : bool :=
  (4 <? length s)%nat && strcmp_eq (skipn (length s - 4) s) (txt ":tls").

(** The body of [parse] from the test for a leading bracket on: [f] is the
    text without the suffix, [isTLS] whether the suffix was there. *)
Definition parse_endpoint (f : text) (isTLS : bool) : outcome t :=
  if Ascii.eqb (at_ f 0) "[" then
    (* IPv6 address/port pair is represented as "[ip]:port" *)
    match find_first_of f "]" 0 with
    | None => Throws connection_string_invalid
    | Some addrEnd =>
        if negb (Ascii.eqb (at_ f (addrEnd + 1)) ":")
        then Throws connection_string_invalid
        else
          port <- (digits <- substr f (addrEnd + 2) None ;; stoi digits) ;;
          addr <- (inner <- substr f 1 (Some (addrEnd - 1)%nat) ;; IPAddress.parse inner) ;;
          match addr with
          | None => Throws connection_string_invalid
          | Some address => Returns (make address (to_uint16 port) true isTLS)
          end
    end
  else
    match sscanf (c_str f) dotted_quad_format (-1) with
    | ScanUndefined => Undefined
    | Scanned ret vals count =>
        if (ret <? 5) || negb (count =? Z.of_nat (length f))
        then Throws connection_string_invalid
        else
          let a := nth 0 vals 0 in
          let b := nth 1 vals 0 in
          let c := nth 2 vals 0 in
          let d := nth 3 vals 0 in
          let port := nth 4 vals 0 in
          Returns (make_v4
                     (to_uint32 (int_add (int_add (int_add (int_shl a 24) (int_shl b 16))
                                                  (int_shl c 8)) d))
                     (to_uint16 port) true isTLS)
    end.

Definition parse (s : text) : outcome t :=
  let isTLS := has_tls_suffix s in
  f <- (if isTLS then substr s 0 (Some (length s - 4)%nat) else Returns s) ;;
  parse_endpoint f isTLS.

(** The loop of [parseList] from position [p]; [fuel] bounds the number
    of iterations still allowed, [None] when it runs out. *)
Fixpoint parseList_loop (fuel : nat) (addrs : text) (p : nat) (coord : list t)
  : option (outcome (list t)) :=
  if (p <=? length addrs)%nat then
    match fuel with
    | O => None
    | S fuel' =>
        let pComma := match find_first_of addrs "," p with
                      | Some i => i
                      | None => length addrs
                      end in
        match (piece <- substr addrs p (Some (pComma - p)%nat) ;; parse piece) with
        | Returns parsedAddress =>
            parseList_loop fuel' addrs (pComma + 1) (coord ++ [parsedAddress])
        | Throws e => Some (Throws e)
        | Undefined => Some Undefined
        end
    end
  else Some (Returns coord).

(** One iteration consumes at least one position of [0 .. size]. *)
Definition parseList (addrs : text) : option (outcome (list t)) :=
  parseList_loop (length addrs + 1) addrs 0 [].

Definition toString (a : t) : text :=
  let tail := ":"%char :: fmt_d (port a) ++ c_str (if isTLS a then txt ":tls" else txt "") in
  if isV6 a
  then "["%char :: c_str (IPAddress.toString (ip a)) ++ "]"%char :: tail
  else c_str (IPAddress.toString (ip a)) ++ tail.

End NetworkAddress.

(** [toIPVectorString], for 32-bit addresses and for [IPAddress]es. *)
Fixpoint toIPVectorString_loop (ips : list Z) (space : text) : text :=
  match ips with
  | [] => []
  | ip :: ips' =>
      c_str space
        ++ fmt_d (Z.land (Z.shiftr ip 24) 255) ++ "."%char ::
           fmt_d (Z.land (Z.shiftr ip 16) 255) ++ "."%char ::
           fmt_d (Z.land (Z.shiftr ip 8) 255) ++ "."%char ::
           fmt_d (Z.land ip 255)
        ++ toIPVectorString_loop ips' (txt " ")
  end.

Definition toIPVectorString_uint32 (ips : list Z) : text :=
  toIPVectorString_loop ips (txt "").

Fixpoint toIPVectorString_addr_loop (ips : list IPAddress.t) (space : text) : text :=
  match ips with
  | [] => []
  | ip :: ips' =>
      c_str space ++ c_str (IPAddress.toString ip)
        ++ toIPVectorString_addr_loop ips' (txt " ")
  end.

Definition toIPVectorString (ips : list IPAddress.t) : text :=
  toIPVectorString_addr_loop ips (txt "").

(** ** INetworkConnections::connect *)

Module INetworkConnections.

(** What a call of [connect] does to its collaborators, in order. *)
Inductive event : Type :=
| EvResolve (host service : text)
| EvRandomInt (min maxPlusOne : Z)
| EvConnect (addr : NetworkAddress.t) (host : text).

(** A Future once it is settled, with the calls made on the way: ready
    with a value, failed with an error, or broken by undefined
    behaviour in a callback. *)
Definition Future (A : Type) : Type := list event * outcome A.

(** Modelled from the spec: flow's [map] and [mapAsync]
    (flow/genericactors.actor.h) are not among the sources.  By the spec
    the steps are chained: the callback runs on the value of a Future
    that succeeded, and a failure is passed on without running it. *)
Definition map {A B : Type} (what : Future A) (func : A -> Future B) : Future B :=
  match what with
  | (tr, Returns val) => let '(tr', r) := func val in (tr ++ tr', r)
  | (tr, Throws e) => (tr, Throws e)
  | (tr, Undefined) => (tr, Undefined)
  end.

(** Modelled from the spec: as [map], for a callback that returns a
    Future itself. *)
Definition mapAsync {A B : Type} (what : Future A) (func : A -> Future B) : Future B :=
  map what func.

Section Connect.

(** [Reference<IConnection>] *)
Variable Connection : Type.

(** The collaborators: the resolver, the connection layer, and what
    [g_random->randomInt(min, maxPlusOne)] does. *)
Variable resolveTCPEndpoint : text -> text -> outcome (list NetworkAddress.t).
Variable connect_to : NetworkAddress.t -> text -> outcome Connection.
Variable randomInt : Z -> Z -> outcome Z.

(** [addresses[i]]: outside the vector it is undefined behaviour. *)
Definition index (addresses : list NetworkAddress.t) (i : Z) : outcome NetworkAddress.t :=
  if i <? 0 then Undefined
  else match nth_error addresses (Z.to_nat i) with
       | Some addr => Returns addr
       | None => Undefined
       end.

Definition with_flags (addr : NetworkAddress.t) (f : Z) : NetworkAddress.t :=
  {| NetworkAddress.ip := NetworkAddress.ip addr;
     NetworkAddress.port := NetworkAddress.port addr;
     NetworkAddress.flags := f |}.

(** The callback given to [map]. *)
Definition pickEndpoint (useTLS : bool) (addresses : list NetworkAddress.t)
  : Future NetworkAddress.t :=
  let maxPlusOne := Z.of_nat (length addresses) in
  ([EvRandomInt 0 maxPlusOne],
   i <- randomInt 0 maxPlusOne ;;
   addr <- index addresses i ;;
   Returns (if useTLS then with_flags addr NetworkAddress.FLAG_TLS else addr)).

Definition connect (host service : text) (useTLS : bool) : Future Connection :=
  mapAsync
    (map ([EvResolve host service], resolveTCPEndpoint host service)
         (pickEndpoint useTLS))
    (fun addr => ([EvConnect addr host], connect_to addr host)).

End Connect.

End INetworkConnections.

(** ** Texts named in the statements *)

(** ["A.B.C.D:PORT"] with each field printed by [%d]. *)
Definition dotted_quad (a b c d port : Z) : text :=
  fmt_d a ++ "."%char :: fmt_d b ++ "."%char :: fmt_d c ++ "."%char :: fmt_d d
    ++ ":"%char :: fmt_d port.

(** A text that does not go on with a decimal digit. *)
Definition no_leading_digit (rest : text) : Prop :=
  match rest with
  | c :: _ => isdigit c = false
  | [] => True
  end.

(** The pieces of a text between the occurrences of [sep], as the spec
    words it: no escaping, no trimming, an empty piece between two
    separators and after a trailing one. *)
Fixpoint split_on (sep : ascii) (s : text) : list text :=
  match s with
  | [] => [[]]
  | c :: s' =>
      if Ascii.eqb c sep then [] :: split_on sep s'
      else match split_on sep s' with
           | piece :: pieces => (c :: piece) :: pieces
           | [] => [[c]]
           end
  end.

(** Each piece parsed on its own, in order, stopping at the first piece
    that does not give an address. *)
Fixpoint parse_each (pieces : list text) : outcome (list NetworkAddress.t) :=
  match pieces with
  | [] => Returns []
  | piece :: pieces' =>
      x <- NetworkAddress.parse piece ;;
      xs <- parse_each pieces' ;;
      Returns (x :: xs)
  end.

(** ** Notions used in the proofs *)

(** How many hexadecimal digits a 16-bit group takes. *)
Definition hex_width (k : nat) (n : Z) : Prop :=
  (k = 1%nat /\ 0 <= n < 16) \/ (k = 2%nat /\ 16 <= n < 256)
  \/ (k = 3%nat /\ 256 <= n < 4096) \/ (k = 4%nat /\ 4096 <= n < 65536).

(** The digits of an octet, read as hexadecimal digits by the IPv6 loop
    before it meets the dot. *)
Definition dec_width (k : nat) (n v : Z) : Prop :=
  (k = 1%nat /\ 0 <= n < 10 /\ 0 <= v < 16)
  \/ (k = 2%nat /\ 10 <= n < 100 /\ 0 <= v < 256)
  \/ (k = 3%nat /\ 100 <= n < 1000 /\ 0 <= v < 4096).

Definition is_byte (b : Z) : Prop := 0 <= b < 256.

Definition run_zero (words : list Z) (r : run) : bool :=
  (base r =? -1)
  || ((0 <=? base r) && (2 <=? len r) && (base r + len r <=? 8)
      && forallb (fun iw => negb (in_run r (fst iw)) || (snd iw =? 0))
                 (combine [0; 1; 2; 3; 4; 5; 6; 7] words)).

Definition zero_flag (w : Z) : Z := if w =? 0 then 0 else 1.

Definition plain_char (c : ascii) : Prop :=
  c <> NUL /\ c <> "]"%char /\ c <> "%"%char.

(** A store of sixteen bytes for IPv6; for IPv4 the store written by the
    constructor from a 32-bit value. *)
Definition well_formed (a : IPAddress.t) : Prop :=
  if IPAddress.isV6addr a
  then length (IPAddress.store a) = 16%nat /\ Forall is_byte (IPAddress.store a)
  else exists v, 0 <= v < 2 ^ 32 /\ a = IPAddress.of_uint32 v.

Definition sample_v6_tls : NetworkAddress.t :=
  NetworkAddress.make
    (IPAddress.of_store [32; 1; 13; 184; 133; 163; 0; 0; 0; 0; 138; 46; 3; 112; 115; 52])
    4800 true true.

Definition tls_text (isTLS : bool) : text := if isTLS then txt ":tls" else [].

(** The text in front of the suffix, for an address that came out of a
    parse. *)
Definition endpoint_text (x : NetworkAddress.t) : text :=
  (if NetworkAddress.isV6 x
   then "["%char :: IPAddress.toString (NetworkAddress.ip x) ++ ["]"%char]
   else IPAddress.toString (NetworkAddress.ip x))
    ++ ":"%char :: fmt_d (NetworkAddress.port x).

(** ** Values for the examples *)

Definition sample_candidates : list NetworkAddress.t :=
  [NetworkAddress.make_v4 167772161 80 true false;
   {| NetworkAddress.ip := IPAddress.of_uint32 167772162;
      NetworkAddress.port := 80;
      NetworkAddress.flags := NetworkAddress.FLAG_PRIVATE |}].

(** ** Texts and values named in the further properties *)

(** ["A.B.C.D"] with each octet printed by [%d]. *)
Definition dotted_ip (a b c d : Z) : text :=
  fmt_d a ++ "."%char :: fmt_d b ++ "."%char :: fmt_d c ++ "."%char :: fmt_d d.

(** The octets of a 32-bit address, most significant first, as [toString]
    takes them. *)
Definition octets (ip : Z) : list Z :=
  [Z.land (Z.shiftr ip 24) 255; Z.land (Z.shiftr ip 16) 255;
   Z.land (Z.shiftr ip 8) 255; Z.land ip 255].

(** ["A.B.C.D:PORT"] with white space in front of each field. *)
Definition dotted_quad_spaced (w1 w2 w3 w4 w5 : text) (a b c d port : Z) : text :=
  w1 ++ fmt_d a ++ "."%char :: w2 ++ fmt_d b ++ "."%char :: w3 ++ fmt_d c ++ "."%char ::
  w4 ++ fmt_d d ++ ":"%char :: w5 ++ fmt_d port.

(** The text [parse] goes on with once the suffix test is done. *)
Definition without_suffix (s : text) : text :=
  if NetworkAddress.has_tls_suffix s then firstn (length s - 4) s else s.

(** The pieces put together again with [sep] between them. *)
Fixpoint join_with (sep : ascii) (pieces : list text) : text :=
  match pieces with
  | [] => []
  | piece :: pieces' =>
      match pieces' with
      | [] => piece
      | _ :: _ => piece ++ sep :: join_with sep pieces'
      end
  end.

(** * Properties *)

#[local] Arguments Z.shiftl : simpl never.
#[local] Arguments Z.shiftr : simpl never.
#[local] Arguments Z.land : simpl never.
#[local] Arguments Z.lor : simpl never.
#[local] Arguments Z.pow : simpl never.
#[local] Arguments Z.modulo : simpl never.
#[local] Arguments Z.div : simpl never.

(** ** Ordering and equality of IPAddress *)

Section StoreOrder.

Import IPAddress.

Lemma store_eqb_eq (x y : list Z) : store_eqb x y = true <-> x = y.
Proof.
  revert y; induction x as [|a x IH]; intros [|b y]; simpl; split;
    try congruence; try discriminate.
  - rewrite andb_true_iff, Z.eqb_eq, IH. intros [-> ->]; reflexivity.
  - intros E; injection E as -> ->. rewrite Z.eqb_refl. simpl. apply IH; reflexivity.
Qed.

Lemma store_ltb_irrefl (x : list Z) : store_ltb x x = false.
Proof.
  induction x as [|a x IH]; simpl; [reflexivity|].
  rewrite Z.ltb_irrefl, Z.eqb_refl, IH. reflexivity.
Qed.

Lemma store_ltb_cons (a b : Z) (x y : list Z) :
  store_ltb (a :: x) (b :: y) = true <-> a < b \/ (a = b /\ store_ltb x y = true).
Proof.
  simpl. rewrite orb_true_iff, andb_true_iff, Z.ltb_lt, Z.eqb_eq. reflexivity.
Qed.

Lemma store_ltb_trans (x y z : list Z) :
  store_ltb x y = true -> store_ltb y z = true -> store_ltb x z = true.
Proof.
  revert y z; induction x as [|a x IH]; intros [|b y] [|c z]; try discriminate;
    try (intros; reflexivity).
  rewrite !store_ltb_cons. intros [H1|[-> H1]] [H2|[-> H2]].
  - left; lia.
  - left; lia.
  - left; lia.
  - right; split; [reflexivity|]. eapply IH; eassumption.
Qed.

Lemma store_trichotomy (x y : list Z) :
  (store_ltb x y = true /\ x <> y /\ store_ltb y x = false)
  \/ (store_ltb x y = false /\ x = y /\ store_ltb y x = false)
  \/ (store_ltb x y = false /\ x <> y /\ store_ltb y x = true).
Proof.
  revert y; induction x as [|a x IH]; intros [|b y].
  - right; left; repeat split.
  - left; repeat split; discriminate.
  - right; right; repeat split; discriminate.
  - simpl. destruct (Z.lt_trichotomy a b) as [L|[->|L]].
    + left. rewrite (proj2 (Z.ltb_lt a b) L), (proj2 (Z.ltb_ge b a)) by lia.
      rewrite (proj2 (Z.eqb_neq b a)) by lia. repeat split. intros E; injection E; lia.
    + rewrite Z.ltb_irrefl, Z.eqb_refl. simpl.
      destruct (IH y) as [(A & B & C)|[(A & B & C)|(A & B & C)]].
      * left; repeat split; try assumption. intros E; injection E; assumption.
      * right; left; repeat split; try assumption. congruence.
      * right; right; repeat split; try assumption. intros E; injection E; assumption.
    + right; right. rewrite (proj2 (Z.ltb_lt b a) L), (proj2 (Z.ltb_ge a b)) by lia.
      rewrite (proj2 (Z.eqb_neq a b)) by lia. repeat split. intros E; injection E; lia.
Qed.

(** The code's comparison of stores is the lexicographic one: the first
    position where two stores of one length differ decides. *)
Lemma store_ltb_first_difference (x y : list Z) :
  length x = length y ->
  (store_ltb x y = true <->
   exists p a b x' y', x = p ++ a :: x' /\ y = p ++ b :: y' /\ a < b).
Proof.
  revert y; induction x as [|a x IH]; intros [|b y] L; try discriminate.
  - split; [discriminate|]. intros (p & u & v & x' & y' & E & _).
    destruct p; discriminate.
  - injection L as L. rewrite store_ltb_cons. split.
    + intros [H|[-> H]].
      * exists [], a, b, x, y. repeat split. assumption.
      * apply (IH y L) in H. destruct H as (p & u & v & x' & y' & -> & -> & H).
        exists (b :: p), u, v, x', y'. repeat split. assumption.
    + intros (p & u & v & x' & y' & E1 & E2 & H).
      destruct p as [|c p]; simpl in E1, E2.
      * injection E1 as -> ->. injection E2 as -> ->. left; assumption.
      * injection E1 as -> ->. injection E2 as -> ->. right; split; [reflexivity|].
        apply IH.
        -- rewrite !length_app in *. simpl in *. lia.
        -- exists p, u, v, x', y'. repeat split. assumption.
Qed.

End StoreOrder.

Lemma IPAddress_eqb_eq (a b : IPAddress.t) : IPAddress.eqb a b = true <-> a = b.
Proof.
  destruct a as [sa va], b as [sb vb]. unfold IPAddress.eqb. simpl.
  rewrite andb_true_iff, Bool.eqb_true_iff, store_eqb_eq. split.
  - intros [-> ->]; reflexivity.
  - intros E; injection E as -> ->. split; reflexivity.
Qed.

(** C6. [IPAddress]'s [operator<] puts every IPv4 address before every IPv6
    address, compares two addresses of one family by their stored bytes
    lexicographically, and together with [operator==] (same family and same
    bytes) is a strict total order: irreflexive, transitive, and exactly
    one of [a < b], [a == b], [b < a] holds. *)
Theorem IPAddress_order_family_first_total :
  (forall a b, IPAddress.isV6 a = false -> IPAddress.isV6 b = true ->
               IPAddress.ltb a b = true /\ IPAddress.ltb b a = false)
  /\ (forall a b, IPAddress.isV6 a = IPAddress.isV6 b ->
                  IPAddress.ltb a b = IPAddress.store_ltb (IPAddress.store a) (IPAddress.store b))
  /\ (forall a b, IPAddress.isV6 a = IPAddress.isV6 b ->
                  length (IPAddress.store a) = length (IPAddress.store b) ->
                  (IPAddress.ltb a b = true <->
                   exists p u v x y, IPAddress.store a = p ++ u :: x
                                     /\ IPAddress.store b = p ++ v :: y /\ u < v))
  /\ (forall a b, IPAddress.eqb a b = true <->
                  IPAddress.isV6 a = IPAddress.isV6 b /\ IPAddress.store a = IPAddress.store b)
  /\ (forall a, IPAddress.ltb a a = false)
  /\ (forall a b c, IPAddress.ltb a b = true -> IPAddress.ltb b c = true ->
                    IPAddress.ltb a c = true)
  /\ (forall a b,
         (IPAddress.ltb a b = true /\ IPAddress.eqb a b = false /\ IPAddress.ltb b a = false)
         \/ (IPAddress.ltb a b = false /\ IPAddress.eqb a b = true /\ IPAddress.ltb b a = false)
         \/ (IPAddress.ltb a b = false /\ IPAddress.eqb a b = false /\ IPAddress.ltb b a = true)).
Proof.
  repeat apply conj.
  - intros [sa va] [sb vb]; unfold IPAddress.ltb, IPAddress.isV6; simpl.
    intros -> ->. split; reflexivity.
  - intros [sa va] [sb vb]; unfold IPAddress.ltb, IPAddress.isV6; simpl.
    intros ->. rewrite Bool.eqb_reflx. reflexivity.
  - intros [sa va] [sb vb]; unfold IPAddress.ltb, IPAddress.isV6; simpl.
    intros -> L. rewrite Bool.eqb_reflx. apply store_ltb_first_difference, L.
  - intros a b. rewrite IPAddress_eqb_eq. destruct a, b; simpl. split.
    + intros E; injection E as -> ->. split; reflexivity.
    + intros [-> ->]; reflexivity.
  - intros [sa va]; unfold IPAddress.ltb, IPAddress.isV6; simpl.
    rewrite Bool.eqb_reflx. apply store_ltb_irrefl.
  - intros [sa va] [sb vb] [sc vc]; unfold IPAddress.ltb, IPAddress.isV6; simpl.
    destruct va, vb, vc; simpl; try discriminate; try (intros; reflexivity);
      apply store_ltb_trans.
  - intros [sa va] [sb vb]; unfold IPAddress.ltb, IPAddress.eqb, IPAddress.isV6; simpl.
    destruct va, vb; simpl.
    + destruct (store_trichotomy sa sb) as [(A & B & C)|[(A & B & C)|(A & B & C)]];
        rewrite A, C.
      * left; repeat split. apply not_true_is_false. rewrite store_eqb_eq. assumption.
      * right; left; repeat split. apply store_eqb_eq. assumption.
      * right; right; repeat split. apply not_true_is_false. rewrite store_eqb_eq. assumption.
    + right; right; repeat split.
    + left; repeat split.
    + destruct (store_trichotomy sa sb) as [(A & B & C)|[(A & B & C)|(A & B & C)]];
        rewrite A, C.
      * left; repeat split. apply not_true_is_false. rewrite store_eqb_eq. assumption.
      * right; left; repeat split. apply store_eqb_eq. assumption.
      * right; right; repeat split. apply not_true_is_false. rewrite store_eqb_eq. assumption.
Qed.

Lemma IPAddress_order_family_first_total_witness :
  IPAddress.ltb (IPAddress.of_uint32 4294967295) (IPAddress.of_store (repeat 0 16)) = true
  /\ IPAddress.ltb (IPAddress.of_store (repeat 0 16)) (IPAddress.of_uint32 4294967295) = false.
Proof.
  apply (proj1 IPAddress_order_family_first_total); reflexivity.
Defined.

(** ** IPAddress::parse *)

(** C9. [IPAddress::parse] never throws: for every string it returns, and
    the result is either the address Boost.Asio parsed, tagged with the
    family Asio detected (an IPv6 address keeps the sixteen bytes, an IPv4
    address the 32-bit value), or the absent value when Asio rejected the
    text by throwing. *)
Theorem IPAddress_parse_never_throws (str : text) :
  (exists addr a,
      Asio.from_string str = Returns addr
      /\ IPAddress.parse str = Returns (Some a)
      /\ IPAddress.isV6 a = Asio.is_v6 addr
      /\ a = match addr with
             | Asio.address_v6 bytes => IPAddress.of_store bytes
             | Asio.address_v4 ulong => IPAddress.of_uint32 ulong
             end)
  \/ (exists e, Asio.from_string str = Throws e /\ IPAddress.parse str = Returns None).
Proof.
  unfold IPAddress.parse.
  destruct (Asio.from_string str) as [addr|e|] eqn:E.
  - left. exists addr. eexists. repeat split. destruct addr; reflexivity.
  - right. exists e. split; reflexivity.
  - exfalso. unfold Asio.from_string in E.
    destruct (Asio.make_address_v6 _); [discriminate|].
    destruct (Asio.make_address_v4 _); discriminate.
Qed.

(** ** INetworkConnections::connect *)

Section ConnectFacts.

Import INetworkConnections.

Variable Connection : Type.
Variable resolveTCPEndpoint : text -> text -> outcome (list NetworkAddress.t).
Variable connect_to : NetworkAddress.t -> text -> outcome Connection.
Variable randomInt : Z -> Z -> outcome Z.

Let connect := connect Connection resolveTCPEndpoint connect_to randomInt.

Lemma index_in_range (addresses : list NetworkAddress.t) (r : Z) :
  0 <= r < Z.of_nat (length addresses) ->
  exists c, nth_error addresses (Z.to_nat r) = Some c /\ index addresses r = Returns c.
Proof.
  intros H. unfold index. rewrite (proj2 (Z.ltb_ge r 0)) by lia.
  destruct (nth_error addresses (Z.to_nat r)) as [c|] eqn:E.
  - exists c. split; reflexivity.
  - apply nth_error_None in E. lia.
Qed.

(** C4. When the resolver delivers a non-empty list and the random source
    draws an index [r] of it ([0 <= r < size]), [connect] hands exactly the
    candidate at index [r] to the connection layer, after one resolution and
    one draw over [[0, size)].  With [useTLS] the candidate's flags are
    overwritten with exactly the TLS bit, whatever they were, so it reports
    [isTLS()]; address and port are kept.  Without [useTLS] the candidate
    is passed on unchanged: its flags, and with them its TLS bit, are what
    the resolver gave. *)
Theorem connect_selects_one_candidate
        (host service : text) (useTLS : bool)
        (candidates : list NetworkAddress.t) (r : Z) :
  candidates <> [] ->
  resolveTCPEndpoint host service = Returns candidates ->
  randomInt 0 (Z.of_nat (length candidates)) = Returns r ->
  0 <= r < Z.of_nat (length candidates) ->
  exists c chosen,
    nth_error candidates (Z.to_nat r) = Some c
    /\ connect host service useTLS
       = ([EvResolve host service;
           EvRandomInt 0 (Z.of_nat (length candidates));
           EvConnect chosen host],
          connect_to chosen host)
    /\ NetworkAddress.ip chosen = NetworkAddress.ip c
    /\ NetworkAddress.port chosen = NetworkAddress.port c
    /\ (useTLS = true ->
        NetworkAddress.flags chosen = NetworkAddress.FLAG_TLS
        /\ NetworkAddress.isTLS chosen = true)
    /\ (useTLS = false ->
        chosen = c /\ NetworkAddress.isTLS chosen = NetworkAddress.isTLS c).
Proof.
  intros _ Hres Hrnd Hr.
  destruct (index_in_range candidates r Hr) as (c & Hc & Hi).
  exists c, (if useTLS then with_flags c NetworkAddress.FLAG_TLS else c).
  split; [assumption|]. split.
  - unfold connect, INetworkConnections.connect, mapAsync, map, pickEndpoint.
    rewrite Hres, Hrnd. simpl. rewrite Hi. simpl. reflexivity.
  - destruct useTLS; simpl; repeat split; discriminate.
Qed.

(** C5, as the code has it.  A failed resolution fails [connect] with the
    resolver's error, and nothing else happens: no index is drawn and no
    connection is attempted.  An empty list that the resolver delivers as
    a success is not checked for: the selection runs and asks the random
    source for an index in the empty range [[0, 0)], no candidate is
    handed to the connection layer, and a drawn index reads outside the
    list. *)
Theorem connect_resolution_failure (host service : text) (useTLS : bool) :
  (forall e, resolveTCPEndpoint host service = Throws e ->
             connect host service useTLS = ([EvResolve host service], Throws e))
  /\ (resolveTCPEndpoint host service = Returns [] ->
      connect host service useTLS
      = ([EvResolve host service; EvRandomInt 0 0],
         match randomInt 0 0 with
         | Returns _ => Undefined
         | Throws e => Throws e
         | Undefined => Undefined
         end)).
Proof.
  split.
  - intros e H. unfold connect, INetworkConnections.connect, mapAsync, map.
    rewrite H. reflexivity.
  - intros H. unfold connect, INetworkConnections.connect, mapAsync, map, pickEndpoint.
    rewrite H. simpl. destruct (randomInt 0 0) as [i| |]; simpl; try reflexivity.
    unfold index. destruct (i <? 0); [reflexivity|].
    destruct (Z.to_nat i); reflexivity.
Qed.

End ConnectFacts.

Lemma connect_selects_one_candidate_witness :
  exists c chosen,
    nth_error sample_candidates 1 = Some c
    /\ INetworkConnections.connect unit (fun _ _ => Returns sample_candidates)
         (fun _ _ => Returns tt) (fun _ hi => Returns (hi - 1))
         (txt "example") (txt "80") true
       = ([INetworkConnections.EvResolve (txt "example") (txt "80");
           INetworkConnections.EvRandomInt 0 2;
           INetworkConnections.EvConnect chosen (txt "example")],
          Returns tt)
    /\ NetworkAddress.ip chosen = NetworkAddress.ip c
    /\ NetworkAddress.port chosen = NetworkAddress.port c
    /\ (true = true ->
        NetworkAddress.flags chosen = NetworkAddress.FLAG_TLS
        /\ NetworkAddress.isTLS chosen = true)
    /\ (true = false ->
        chosen = c /\ NetworkAddress.isTLS chosen = NetworkAddress.isTLS c).
Proof.
  apply (connect_selects_one_candidate unit (fun _ _ => Returns sample_candidates)
           (fun _ _ => Returns tt) (fun _ hi => Returns (hi - 1))
           (txt "example") (txt "80") true sample_candidates 1).
  - discriminate.
  - reflexivity.
  - reflexivity.
  - simpl. lia.
Defined.

Lemma connect_resolution_failure_witness :
  INetworkConnections.connect unit (fun _ _ => Throws (flow_error 1))
    (fun _ _ => Returns tt) (fun lo _ => Returns lo) (txt "example") (txt "80") true
  = ([INetworkConnections.EvResolve (txt "example") (txt "80")], Throws (flow_error 1)).
Proof.
  apply (proj1 (connect_resolution_failure unit (fun _ _ => Throws (flow_error 1))
                  (fun _ _ => Returns tt) (fun lo _ => Returns lo)
                  (txt "example") (txt "80") true)).
  reflexivity.
Defined.

(** C5 as stated fails: on an empty list delivered by the resolver the
    selection does run (the random source is asked for an index), and no
    failure of the resolver is there to be passed on. *)
Lemma connect_empty_list_runs_selection :
  ~ (forall (resolve : text -> text -> outcome (list NetworkAddress.t))
            (randomInt : Z -> Z -> outcome Z) (host service : text) (useTLS : bool),
        resolve host service = Returns [] ->
        exists e,
          INetworkConnections.connect unit resolve (fun _ _ => Returns tt) randomInt
            host service useTLS
          = ([INetworkConnections.EvResolve host service], Throws e)).
Proof.
  intros H.
  destruct (H (fun _ _ => Returns []) (fun lo _ => Returns lo) (txt "example") (txt "80") false
              eq_refl) as [e He].
  discriminate He.
Qed.

(** ** Facts about strings *)

Lemma text_eqb_eq (a b : text) : Text.eqb a b = true <-> a = b.
Proof.
  revert b; induction a as [|x a IH]; intros [|y b]; simpl; split;
    try congruence; try discriminate.
  - rewrite andb_true_iff, Ascii.eqb_eq, IH. intros [-> ->]; reflexivity.
  - intros E; injection E as -> ->. rewrite Ascii.eqb_refl. simpl. apply IH; reflexivity.
Qed.

Lemma c_str_no_nul (s : text) : Forall (fun c => c <> NUL) s -> c_str s = s.
Proof.
  induction 1 as [|c s Hc _ IH]; simpl; [reflexivity|].
  destruct (Ascii.eqb c NUL) eqn:E.
  - apply Ascii.eqb_eq in E. contradiction.
  - rewrite IH. reflexivity.
Qed.

Lemma c_str_length (s : text) : (length (c_str s) <= length s)%nat.
Proof.
  induction s as [|c s IH]; simpl; [lia|]. destruct (Ascii.eqb c NUL); simpl; lia.
Qed.

Lemma c_str_full (s : text) : length (c_str s) = length s -> c_str s = s.
Proof.
  induction s as [|c s IH]; simpl; [reflexivity|].
  destruct (Ascii.eqb c NUL); simpl; [discriminate|].
  intros E. injection E as E. rewrite IH by assumption. reflexivity.
Qed.

(** The suffix test of [parse]: exactly the last four characters are
    compared, and something must be left in front of them. *)
Lemma has_tls_suffix_iff (s : text) :
  NetworkAddress.has_tls_suffix s = true <-> exists f, f <> [] /\ s = f ++ txt ":tls".
Proof.
  unfold NetworkAddress.has_tls_suffix, strcmp_eq.
  rewrite andb_true_iff, Nat.ltb_lt, text_eqb_eq. split.
  - intros [L E]. change (c_str (txt ":tls")) with (txt ":tls") in E.
    assert (Hlen : length (skipn (length s - 4) s) = 4%nat) by (rewrite length_skipn; lia).
    rewrite c_str_full in E by (rewrite E, Hlen; reflexivity).
    exists (firstn (length s - 4) s). split.
    + intros F. apply (f_equal (@length _)) in F. rewrite length_firstn in F. simpl in F. lia.
    + rewrite <- E. symmetry. apply firstn_skipn.
  - intros (f & Hf & ->). rewrite length_app. simpl. split.
    + destruct f; [contradiction|simpl; lia].
    + replace (length f + 4 - 4)%nat with (length f + 0)%nat by lia.
      rewrite skipn_app, Nat.add_0_r, skipn_all. 
      replace (length f - length f)%nat with 0%nat by lia. reflexivity.
Qed.

Lemma has_tls_suffix_strip (f : text) :
  f <> [] ->
  substr (f ++ txt ":tls") 0 (Some (length (f ++ txt ":tls") - 4)%nat) = Returns f.
Proof.
  intros _. unfold substr. simpl. rewrite length_app. simpl.
  replace (length f + 4 - 4)%nat with (length f + 0)%nat by lia.
  rewrite firstn_app_2. simpl. rewrite app_nil_r. reflexivity.
Qed.

(** ** Printing and scanning decimal numbers *)

#[local] Arguments digits : simpl never.
#[local] Arguments fmt_d : simpl never.
#[local] Arguments fmt_u : simpl never.
#[local] Arguments fmt_x : simpl never.

Lemma digit_char_decimal (d : Z) :
  0 <= d < 10 -> isdigit (digit_char d) = true /\ digit_val (digit_char d) = d.
Proof.
  intros H.
  assert (E : d = 0 \/ d = 1 \/ d = 2 \/ d = 3 \/ d = 4 \/ d = 5 \/ d = 6 \/ d = 7
              \/ d = 8 \/ d = 9) by lia.
  repeat (destruct E as [->|E]; [split; reflexivity|]). subst d. split; reflexivity.
Qed.

Lemma digits_fuel_app (fuel : nat) (base n : Z) (acc : text) :
  digits_fuel fuel base n acc = digits_fuel fuel base n [] ++ acc.
Proof.
  revert n acc; induction fuel as [|f IH]; intros n acc; simpl; [reflexivity|].
  destruct (n <? base); [reflexivity|].
  rewrite (IH _ (_ :: acc)), (IH _ [_]), <- app_assoc. reflexivity.
Qed.

Lemma digits_fuel_last (fuel : nat) (base n : Z) (acc : text) :
  exists pre, digits_fuel (S fuel) base n acc = pre ++ digit_char (n mod base) :: acc.
Proof.
  simpl. destruct (n <? base).
  - exists []. reflexivity.
  - exists (digits_fuel fuel base (n / base) []). apply digits_fuel_app.
Qed.

Lemma digits_fuel_Forall (P : ascii -> Prop) (fuel : nat) (base n : Z) (acc : text) :
  (forall d, 0 <= d < base -> P (digit_char d)) ->
  0 < base -> Forall P acc -> Forall P (digits_fuel fuel base n acc).
Proof.
  intros HP Hb. revert n acc; induction fuel as [|f IH]; intros n acc Hacc; simpl;
    [assumption|].
  assert (Hd : P (digit_char (n mod base))) by (apply HP, Z.mod_pos_bound; assumption).
  destruct (n <? base); [constructor; assumption|].
  apply IH. constructor; assumption.
Qed.

Lemma fuel_enough (n : Z) : 0 <= n -> n < 2 ^ Z.of_nat (S (Z.to_nat (Z.log2 n))).
Proof.
  intros H. rewrite Nat2Z.inj_succ, Z2Nat.id by apply Z.log2_nonneg.
  destruct (Z.eq_dec n 0) as [->|N]; [reflexivity|].
  apply Z.log2_spec. lia.
Qed.

Lemma div_fuel (n b : Z) (f : nat) :
  2 <= b -> 0 <= n < 2 ^ Z.of_nat (S f) -> 0 <= n / b < 2 ^ Z.of_nat f.
Proof.
  intros Hb [H0 H]. rewrite Nat2Z.inj_succ, Z.pow_succ_r in H by lia.
  split; [apply Z.div_pos; lia|].
  apply Z.div_lt_upper_bound; [lia|].
  assert (0 < 2 ^ Z.of_nat f) by (apply Z.pow_pos_nonneg; lia). nia.
Qed.

Lemma scan_digits_fuel (fuel : nat) (n : Z) (acc : text) :
  0 <= n < 2 ^ Z.of_nat fuel ->
  scan_digits (digits_fuel fuel 10 n acc) 0 = scan_digits acc n.
Proof.
  revert n acc; induction fuel as [|f IH]; intros n acc H.
  - simpl in *. assert (n = 0) by lia. subst. reflexivity.
  - simpl digits_fuel. destruct (n <? 10) eqn:L.
    + apply Z.ltb_lt in L. rewrite Z.mod_small by lia.
      destruct (digit_char_decimal n) as [D V]; [lia|].
      simpl. rewrite D, V. reflexivity.
    + apply Z.ltb_ge in L. rewrite IH by (apply div_fuel; lia).
      destruct (digit_char_decimal (n mod 10)) as [D V]; [apply Z.mod_pos_bound; lia|].
      simpl. rewrite D, V. f_equal.
      rewrite (Z.div_mod n 10) at 3 by lia. lia.
Qed.

Lemma scan_digits_stop (rest : text) (v : Z) :
  no_leading_digit rest -> scan_digits rest v = (v, rest).
Proof.
  destruct rest as [|c r]; simpl; [reflexivity|]. intros ->. reflexivity.
Qed.

Lemma scan_digits_decimal (n : Z) (rest : text) :
  0 <= n -> no_leading_digit rest -> scan_digits (digits 10 n ++ rest) 0 = (n, rest).
Proof.
  intros H R. unfold digits. rewrite <- digits_fuel_app.
  rewrite scan_digits_fuel by (split; [assumption|apply fuel_enough; assumption]).
  apply scan_digits_stop, R.
Qed.

Lemma digits_decimal_Forall (n : Z) : Forall (fun c => isdigit c = true) (digits 10 n).
Proof.
  apply digits_fuel_Forall; [|lia|constructor].
  intros d H. apply digit_char_decimal, H.
Qed.

Lemma digits_nonempty (base n : Z) : exists c r, digits base n = c :: r.
Proof.
  unfold digits. destruct (digits_fuel_last (Z.to_nat (Z.log2 n)) base n []) as [pre ->].
  destruct pre as [|c r]; simpl; eauto.
Qed.

Lemma digits_decimal_head (n : Z) :
  exists c r, digits 10 n = c :: r /\ isdigit c = true.
Proof.
  destruct (digits_nonempty 10 n) as (c & r & E). exists c, r. split; [assumption|].
  pose proof (digits_decimal_Forall n) as F. rewrite E in F. inversion F; assumption.
Qed.

Lemma digits_decimal_last (n : Z) :
  exists pre c, digits 10 n = pre ++ [c] /\ isdigit c = true.
Proof.
  unfold digits. destruct (digits_fuel_last (Z.to_nat (Z.log2 n)) 10 n []) as [pre E].
  exists pre, (digit_char (n mod 10)). split; [assumption|].
  apply digit_char_decimal, Z.mod_pos_bound. lia.
Qed.

#[local] Arguments scan_digits : simpl never.

(** What [%d] prints is what [%d] and [strtol] read back, up to the first
    character that is no digit. *)
Lemma scan_integer_fmt_d (v : Z) (rest : text) :
  no_leading_digit rest -> scan_integer (fmt_d v ++ rest) = Some (v, rest).
Proof.
  intros R. unfold fmt_d, scan_integer. destruct (v <? 0) eqn:L.
  - apply Z.ltb_lt in L.
    destruct (digits_decimal_head (- v)) as (c & r & E & D).
    pose proof (scan_digits_decimal (- v) rest ltac:(lia) R) as S.
    rewrite E in *. simpl. rewrite D.
    change (c :: r ++ rest) with ((c :: r) ++ rest). rewrite S.
    f_equal. f_equal. lia.
  - apply Z.ltb_ge in L.
    destruct (digits_decimal_head v) as (c & r & E & D).
    pose proof (scan_digits_decimal v rest L R) as S.
    rewrite E in *.
    assert (Sp : isspace c = false).
    { unfold isdigit, isspace in *. destruct (code c =? 32) eqn:?; lia. }
    assert (M : Ascii.eqb c "-" = false).
    { destruct (Ascii.eqb c "-") eqn:M; [|reflexivity].
      apply Ascii.eqb_eq in M. subst c. discriminate D. }
    assert (P : Ascii.eqb c "+" = false).
    { destruct (Ascii.eqb c "+") eqn:P; [|reflexivity].
      apply Ascii.eqb_eq in P. subst c. discriminate D. }
    simpl. rewrite Sp, M, P, D.
    change (c :: r ++ rest) with ((c :: r) ++ rest). rewrite S. reflexivity.
Qed.

Lemma fmt_d_head (v : Z) :
  exists c r, fmt_d v = c :: r /\ (c = "-"%char \/ isdigit c = true).
Proof.
  unfold fmt_d. destruct (v <? 0).
  - eauto.
  - destruct (digits_decimal_head v) as (c & r & E & D). eauto.
Qed.

Lemma fmt_d_last (v : Z) : exists pre c, fmt_d v = pre ++ [c] /\ isdigit c = true.
Proof.
  unfold fmt_d. destruct (v <? 0).
  - destruct (digits_decimal_last (- v)) as (pre & c & E & D).
    exists ("-"%char :: pre), c. rewrite E. split; [reflexivity|assumption].
  - apply digits_decimal_last.
Qed.

Lemma fmt_d_no_nul (v : Z) : Forall (fun c => c <> NUL) (fmt_d v).
Proof.
  assert (F : Forall (fun c => c <> NUL) (digits 10 (Z.abs v))).
  { eapply Forall_impl; [|apply digits_decimal_Forall].
    intros c D ->. discriminate D. }
  unfold fmt_d. destruct (v <? 0) eqn:L.
  - constructor; [discriminate|]. apply Z.ltb_lt in L.
    replace (- v) with (Z.abs v) by lia. assumption.
  - apply Z.ltb_ge in L. replace v with (Z.abs v) at 1 by lia. assumption.
Qed.

(** A text whose last character is a digit has no [":tls"] suffix. *)
Lemma last_digit_no_suffix (s pre : text) (c : ascii) :
  s = pre ++ [c] -> isdigit c = true -> NetworkAddress.has_tls_suffix s = false.
Proof.
  intros E D. destruct (NetworkAddress.has_tls_suffix s) eqn:T; [|reflexivity].
  apply has_tls_suffix_iff in T. destruct T as (f & _ & F).
  rewrite E in F. change (txt ":tls") with (txt ":tl" ++ ["s"%char]) in F.
  rewrite app_assoc in F. apply app_inj_tail in F. destruct F as [_ ->]. discriminate D.
Qed.

(** ** Machine arithmetic *)

Lemma to_uint32_wrap_int (x : Z) : to_uint32 (wrap_int x) = to_uint32 x.
Proof.
  unfold to_uint32, wrap_int.
  rewrite <- Zminus_mod_idemp_l, Z.mod_mod by lia.
  rewrite Zminus_mod_idemp_l. f_equal.
  replace (x + 2 ^ 31 - 2 ^ 31) with x by lia. reflexivity.
Qed.

Lemma wrap_int_residue (x : Z) : exists k, wrap_int x = x + k * 2 ^ 32.
Proof.
  exists (- ((x + 2 ^ 31) / 2 ^ 32)). unfold wrap_int.
  rewrite Z.mod_eq by lia. lia.
Qed.

(** The address computed by the dotted-quad branch, as a residue. *)
Lemma dotted_quad_value (a b c d : Z) :
  to_uint32 (int_add (int_add (int_add (int_shl a 24) (int_shl b 16)) (int_shl c 8)) d)
  = (Z.shiftl a 24 + Z.shiftl b 16 + Z.shiftl c 8 + d) mod 2 ^ 32.
Proof.
  unfold int_shl, int_add. rewrite to_uint32_wrap_int.
  destruct (wrap_int_residue (Z.shiftl a 24)) as [k1 ->].
  destruct (wrap_int_residue (Z.shiftl b 16)) as [k2 ->].
  destruct (wrap_int_residue (Z.shiftl c 8)) as [k3 ->].
  match goal with |- context [wrap_int ?x] => destruct (wrap_int_residue x) as [k4 ->] end.
  match goal with |- context [wrap_int ?x] => destruct (wrap_int_residue x) as [k5 ->] end.
  unfold to_uint32.
  match goal with |- ?l mod _ = ?r mod _ =>
    replace l with (r + (k1 + k2 + k3 + k4 + k5) * 2 ^ 32) by ring end.
  apply Z.mod_add. lia.
Qed.

Lemma byte_land (v : Z) : Z.land v 255 = v mod 256.
Proof. change 255 with (Z.ones 8). rewrite Z.land_ones by lia. reflexivity. Qed.

(** The four bytes of a 32-bit value, least significant first. *)
Lemma uint32_bytes (v : Z) :
  0 <= v < 2 ^ 32 ->
  exists b0 b1 b2 b3,
    (0 <= b0 < 256 /\ 0 <= b1 < 256 /\ 0 <= b2 < 256 /\ 0 <= b3 < 256)
    /\ v = b0 + 256 * b1 + 65536 * b2 + 16777216 * b3
    /\ Z.land v 255 = b0
    /\ Z.land (Z.shiftr v 8) 255 = b1
    /\ Z.land (Z.shiftr v 16) 255 = b2
    /\ Z.land (Z.shiftr v 24) 255 = b3.
Proof.
  intros H. change (2 ^ 32) with 4294967296 in H.
  rewrite !byte_land, !Z.shiftr_div_pow2 by lia.
  change (2 ^ 8) with 256. change (2 ^ 16) with (256 * 256).
  change (2 ^ 24) with (256 * 256 * 256).
  rewrite <- !Z.div_div by lia.
  set (q1 := v / 256). set (q2 := q1 / 256). set (q3 := q2 / 256).
  pose proof (Z.div_mod v 256 ltac:(lia)) as E0.
  pose proof (Z.div_mod q1 256 ltac:(lia)) as E1.
  pose proof (Z.div_mod q2 256 ltac:(lia)) as E2.
  pose proof (Z.mod_pos_bound v 256 ltac:(lia)) as B0.
  pose proof (Z.mod_pos_bound q1 256 ltac:(lia)) as B1.
  pose proof (Z.mod_pos_bound q2 256 ltac:(lia)) as B2.
  fold q1 in E0. fold q2 in E1. fold q3 in E2.
  assert (B3 : 0 <= q3 < 256) by lia.
  rewrite (Z.mod_small q3 256) by assumption.
  exists (v mod 256), (q1 mod 256), (q2 mod 256), q3.
  repeat split; try lia.
Qed.

Lemma toV4_of_uint32 (v : Z) :
  0 <= v < 2 ^ 32 -> IPAddress.toV4 (IPAddress.of_uint32 v) = v.
Proof.
  intros H. destruct (uint32_bytes v H) as (b0 & b1 & b2 & b3 & B & E & E0 & E1 & E2 & E3).
  unfold IPAddress.toV4, IPAddress.of_uint32, IPAddress.read_uint32,
    IPAddress.write_uint32. cbn [nth app IPAddress.store].
  rewrite E0, E1, E2, E3, !Z.shiftl_mul_pow2 by lia.
  change (2 ^ 8) with 256. change (2 ^ 16) with 65536. change (2 ^ 24) with 16777216.
  lia.
Qed.

(** The four octets [toString] prints rebuild the address. *)
Lemma octets_rebuild (v : Z) :
  0 <= v < 2 ^ 32 ->
  (Z.shiftl (Z.land (Z.shiftr v 24) 255) 24 + Z.shiftl (Z.land (Z.shiftr v 16) 255) 16
   + Z.shiftl (Z.land (Z.shiftr v 8) 255) 8 + Z.land v 255) mod 2 ^ 32 = v.
Proof.
  intros H. destruct (uint32_bytes v H) as (b0 & b1 & b2 & b3 & B & E & E0 & E1 & E2 & E3).
  rewrite E0, E1, E2, E3, !Z.shiftl_mul_pow2 by lia.
  change (2 ^ 8) with 256. change (2 ^ 16) with 65536. change (2 ^ 24) with 16777216.
  rewrite Z.mod_small; [lia|]. change (2 ^ 32) with 4294967296 in *. lia.
Qed.

(** ** The dotted-quad branch *)

Lemma sscanf_dotted_quad (a b c d p : Z) :
  in_int_range a = true -> in_int_range b = true -> in_int_range c = true ->
  in_int_range d = true -> in_int_range p = true ->
  sscanf (dotted_quad a b c d p) NetworkAddress.dotted_quad_format (-1)
  = Scanned 5 [a; b; c; d; p] (Z.of_nat (length (dotted_quad a b c d p))).
Proof.
  intros Ha Hb Hc Hd Hp. unfold sscanf.
  generalize (length (dotted_quad a b c d p)). intros total.
  unfold dotted_quad, NetworkAddress.dotted_quad_format.
  rewrite <- (app_nil_r (fmt_d p)).
  cbn [sscanf_run].
  rewrite scan_integer_fmt_d, Ha by reflexivity. cbn [Ascii.eqb Bool.eqb app].
  rewrite scan_integer_fmt_d, Hb by reflexivity. cbn [Ascii.eqb Bool.eqb app].
  rewrite scan_integer_fmt_d, Hc by reflexivity. cbn [Ascii.eqb Bool.eqb app].
  rewrite scan_integer_fmt_d, Hd by reflexivity. cbn [Ascii.eqb Bool.eqb app].
  rewrite scan_integer_fmt_d, Hp by exact I. cbn [length app].
  rewrite Nat.sub_0_r. reflexivity.
Qed.

Lemma dotted_quad_no_nul (a b c d p : Z) :
  Forall (fun x => x <> NUL) (dotted_quad a b c d p).
Proof.
  unfold dotted_quad.
  repeat (apply Forall_app; split; [apply fmt_d_no_nul|]; constructor; [discriminate|]).
  apply fmt_d_no_nul.
Qed.

Lemma dotted_quad_head (a b c d p : Z) :
  Ascii.eqb (at_ (dotted_quad a b c d p) 0) "[" = false.
Proof.
  unfold dotted_quad. destruct (fmt_d_head a) as (x & r & -> & [->|D]); [reflexivity|].
  cbn [at_ nth app]. destruct (Ascii.eqb x "[") eqn:E; [|reflexivity].
  apply Ascii.eqb_eq in E. subst x. discriminate D.
Qed.

Lemma dotted_quad_last (a b c d p : Z) :
  exists pre x, dotted_quad a b c d p = pre ++ [x] /\ isdigit x = true.
Proof.
  destruct (fmt_d_last p) as (pre & x & E & D).
  exists (fmt_d a ++ "."%char :: fmt_d b ++ "."%char :: fmt_d c ++ "."%char :: fmt_d d
            ++ ":"%char :: pre), x.
  split; [|assumption]. unfold dotted_quad. rewrite E.
  repeat (rewrite <- ?app_assoc, <- ?app_comm_cons). reflexivity.
Qed.

(** The dotted-quad branch whenever the scan assigns five fields and
    consumes the whole text: no field is compared with any bound. *)
Lemma parse_endpoint_scanned (f : text) (a b c d p : Z) (isTLS : bool) :
  Ascii.eqb (at_ f 0) "[" = false ->
  sscanf (c_str f) NetworkAddress.dotted_quad_format (-1)
  = Scanned 5 [a; b; c; d; p] (Z.of_nat (length f)) ->
  NetworkAddress.parse_endpoint f isTLS
  = Returns (NetworkAddress.make_v4
               ((Z.shiftl a 24 + Z.shiftl b 16 + Z.shiftl c 8 + d) mod 2 ^ 32)
               (to_uint16 p) true isTLS).
Proof.
  intros B S. unfold NetworkAddress.parse_endpoint. rewrite B, S.
  rewrite Z.eqb_refl. cbn [Z.ltb Z.compare orb negb nth].
  rewrite dotted_quad_value. reflexivity.
Qed.

(** The dotted-quad branch on a text of the shape ["A.B.C.D:PORT"]. *)
Lemma parse_endpoint_dotted_quad (a b c d p : Z) (isTLS : bool) :
  in_int_range a = true -> in_int_range b = true -> in_int_range c = true ->
  in_int_range d = true -> in_int_range p = true ->
  NetworkAddress.parse_endpoint (dotted_quad a b c d p) isTLS
  = Returns (NetworkAddress.make_v4
               ((Z.shiftl a 24 + Z.shiftl b 16 + Z.shiftl c 8 + d) mod 2 ^ 32)
               (to_uint16 p) true isTLS).
Proof.
  intros Ha Hb Hc Hd Hp. apply parse_endpoint_scanned; [apply dotted_quad_head|].
  rewrite (c_str_no_nul _ (dotted_quad_no_nul a b c d p)).
  apply sscanf_dotted_quad; assumption.
Qed.

Lemma parse_dotted_quad (a b c d p : Z) :
  in_int_range a = true -> in_int_range b = true -> in_int_range c = true ->
  in_int_range d = true -> in_int_range p = true ->
  NetworkAddress.parse (dotted_quad a b c d p)
  = Returns (NetworkAddress.make_v4
               ((Z.shiftl a 24 + Z.shiftl b 16 + Z.shiftl c 8 + d) mod 2 ^ 32)
               (to_uint16 p) true false).
Proof.
  intros Ha Hb Hc Hd Hp. unfold NetworkAddress.parse.
  destruct (dotted_quad_last a b c d p) as (pre & x & E & D).
  rewrite (last_digit_no_suffix _ _ _ E D). cbn [bind].
  apply parse_endpoint_dotted_quad; assumption.
Qed.

Lemma parse_with_suffix (f : text) :
  f <> [] ->
  NetworkAddress.parse (f ++ txt ":tls") = NetworkAddress.parse_endpoint f true.
Proof.
  intros Hf. unfold NetworkAddress.parse.
  rewrite (proj2 (has_tls_suffix_iff (f ++ txt ":tls"))) by (exists f; split; trivial).
  rewrite has_tls_suffix_strip by assumption. reflexivity.
Qed.

Lemma parse_without_suffix (s : text) :
  NetworkAddress.has_tls_suffix s = false ->
  NetworkAddress.parse s = NetworkAddress.parse_endpoint s false.
Proof. intros H. unfold NetworkAddress.parse. rewrite H. reflexivity. Qed.

(** Whatever [parse_endpoint] returns was built by the constructor from
    some address and some [int] port, with the public flag, and the same
    text gives the same address and port under either TLS setting. *)
Lemma parse_endpoint_shape (f : text) (isTLS : bool) (x : NetworkAddress.t) :
  NetworkAddress.parse_endpoint f isTLS = Returns x ->
  exists address p,
    forall tls, NetworkAddress.parse_endpoint f tls
                = Returns (NetworkAddress.make address (to_uint16 p) true tls).
Proof.
  unfold NetworkAddress.parse_endpoint.
  destruct (Ascii.eqb (at_ f 0) "[").
  - destruct (find_first_of f "]" 0) as [addrEnd|]; [|discriminate].
    destruct (negb _); [discriminate|].
    destruct (digits <- substr f (addrEnd + 2) None;; stoi digits) as [p| |];
      try discriminate.
    cbn [bind].
    destruct (inner <- substr f 1 (Some (addrEnd - 1)%nat);; IPAddress.parse inner)
      as [[address|]| |]; try discriminate.
    cbn [bind]. intros _. exists address, p. reflexivity.
  - destruct (sscanf (c_str f) NetworkAddress.dotted_quad_format (-1))
      as [ret vals count|]; [|discriminate].
    destruct (_ || _); [discriminate|]. intros _.
    eexists _, _. intros tls. unfold NetworkAddress.make_v4. reflexivity.
Qed.

Lemma parse_endpoint_empty (isTLS : bool) :
  NetworkAddress.parse_endpoint [] isTLS = Throws connection_string_invalid.
Proof. reflexivity. Qed.

Lemma parse_shape (s : text) (x : NetworkAddress.t) :
  NetworkAddress.parse s = Returns x ->
  exists f address p,
    f <> []
    /\ s = (if NetworkAddress.has_tls_suffix s then f ++ txt ":tls" else f)
    /\ (forall tls, NetworkAddress.parse_endpoint f tls
                    = Returns (NetworkAddress.make address (to_uint16 p) true tls))
    /\ x = NetworkAddress.make address (to_uint16 p) true (NetworkAddress.has_tls_suffix s).
Proof.
  intros H. unfold NetworkAddress.parse in H.
  destruct (NetworkAddress.has_tls_suffix s) eqn:T.
  - apply has_tls_suffix_iff in T. destruct T as (f & Hf & ->).
    rewrite has_tls_suffix_strip in H by assumption. cbn [bind] in H.
    destruct (parse_endpoint_shape _ _ _ H) as (address & p & E).
    exists f, address, p. repeat split; try assumption.
    rewrite E in H. injection H as <-. reflexivity.
  - cbn [bind] in H. destruct (parse_endpoint_shape _ _ _ H) as (address & p & E).
    exists s, address, p. repeat split; try assumption.
    + intros ->. rewrite parse_endpoint_empty in H. discriminate.
    + rewrite E in H. injection H as <-. reflexivity.
Qed.

Lemma in_int_range_iff (v : Z) : in_int_range v = true <-> INT_MIN <= v <= INT_MAX.
Proof. unfold in_int_range. rewrite andb_true_iff, !Z.leb_le. reflexivity. Qed.

Lemma isTLS_make (address : IPAddress.t) (p : Z) (isPublic tls : bool) :
  NetworkAddress.isTLS (NetworkAddress.make address p isPublic tls) = tls.
Proof. destruct isPublic, tls; reflexivity. Qed.

(** ** NetworkAddress::parse *)

(** C3. Every address [NetworkAddress::parse] returns has a port that is
    not negative: it is the scanned [int] converted to the 16-bit unsigned
    port field, so it lies in [0, 65535]. *)
Theorem parse_port_non_negative (s : text) (x : NetworkAddress.t) :
  NetworkAddress.parse s = Returns x -> 0 <= NetworkAddress.port x < 2 ^ 16.
Proof.
  intros H. destruct (parse_shape s x H) as (f & address & p & _ & _ & _ & ->).
  cbn [NetworkAddress.port NetworkAddress.make]. unfold to_uint16.
  apply Z.mod_pos_bound. reflexivity.
Qed.

Lemma parse_port_non_negative_witness :
  0 <= NetworkAddress.port (NetworkAddress.make_v4 16909060 65535 true false) < 2 ^ 16.
Proof.
  apply (parse_port_non_negative (txt "1.2.3.4:-1")). vm_compute. reflexivity.
Defined.

(** C10. The dotted-quad branch checks no octet against 0..255: for any
    five [int] values printed as ["A.B.C.D:PORT"], [parse] returns an IPv4
    address whose 32-bit value is [(A<<24) + (B<<16) + (C<<8) + D] reduced
    modulo [2^32], with the port reduced modulo [2^16] and no TLS flag. *)
Theorem dotted_quad_octets_not_range_checked (a b c d port : Z) :
  INT_MIN <= a <= INT_MAX -> INT_MIN <= b <= INT_MAX -> INT_MIN <= c <= INT_MAX ->
  INT_MIN <= d <= INT_MAX -> INT_MIN <= port <= INT_MAX ->
  exists x,
    NetworkAddress.parse (dotted_quad a b c d port) = Returns x
    /\ NetworkAddress.isV6 x = false
    /\ IPAddress.toV4 (NetworkAddress.ip x)
       = (Z.shiftl a 24 + Z.shiftl b 16 + Z.shiftl c 8 + d) mod 2 ^ 32
    /\ NetworkAddress.port x = port mod 2 ^ 16
    /\ NetworkAddress.isTLS x = false.
Proof.
  intros Ha Hb Hc Hd Hp. apply in_int_range_iff in Ha, Hb, Hc, Hd, Hp.
  eexists. split; [apply parse_dotted_quad; assumption|].
  repeat split.
  cbn [NetworkAddress.ip NetworkAddress.make NetworkAddress.make_v4].
  apply toV4_of_uint32, Z.mod_pos_bound. reflexivity.
Qed.

Lemma dotted_quad_octets_not_range_checked_witness :
  exists x,
    NetworkAddress.parse (txt "300.1.1.1:80") = Returns x
    /\ NetworkAddress.isV6 x = false
    /\ IPAddress.toV4 (NetworkAddress.ip x) = 738263297
    /\ NetworkAddress.port x = 80
    /\ NetworkAddress.isTLS x = false.
Proof.
  apply (dotted_quad_octets_not_range_checked 300 1 1 1 80); vm_compute; split; discriminate.
Defined.

(** C2, at inputs the bracketed branch gets wrong.  After ["[ip]:"] the
    port goes through [std::stoi]: characters after the digits are
    ignored and an address is returned, a port without digits throws
    [std::invalid_argument], a port beyond [int] throws
    [std::out_of_range].  The dotted-quad branch rejects the same faults
    with [connection_string_invalid]. *)
Theorem parse_bracketed_port_not_strict :
  NetworkAddress.parse (txt "[::1]:80abc")
  = Returns (NetworkAddress.make
               (IPAddress.of_store [0; 0; 0; 0; 0; 0; 0; 0; 0; 0; 0; 0; 0; 0; 0; 1])
               80 true false)
  /\ NetworkAddress.parse (txt "[::1]:abc") = Throws std_invalid_argument
  /\ NetworkAddress.parse (txt "[::1]:") = Throws std_invalid_argument
  /\ NetworkAddress.parse (txt "[::1]:99999999999") = Throws std_out_of_range
  /\ NetworkAddress.parse (txt "1.2.3.4:80abc") = Throws connection_string_invalid
  /\ NetworkAddress.parse (txt "1.2.3.4:abc") = Throws connection_string_invalid
  /\ NetworkAddress.parse (txt "1.2.3.4:") = Throws connection_string_invalid.
Proof. repeat split; vm_compute; reflexivity. Qed.

(** Without a leading bracket the only error [parse] raises is
    [connection_string_invalid]. *)
Lemma parse_endpoint_unbracketed_error (f : text) (isTLS : bool) (e : error) :
  Ascii.eqb (at_ f 0) "[" = false ->
  NetworkAddress.parse_endpoint f isTLS = Throws e -> e = connection_string_invalid.
Proof.
  intros B. unfold NetworkAddress.parse_endpoint. rewrite B.
  destruct (sscanf _ _ _) as [ret vals count|]; [|discriminate].
  destruct (_ || _); [|discriminate]. intros E; injection E as <-. reflexivity.
Qed.

(** C7. For a text [s] that the suffix test does not fire on and that
    [parse] accepts: the address has no TLS flag; [s] followed by [":tls"]
    is accepted too, with the same address and port and the TLS flag; and
    that address prints with [":tls"] at the end.  The suffix test fires
    exactly on a non-empty text followed by the four characters [":tls"]. *)
Theorem tls_suffix_symmetry (s : text) (x : NetworkAddress.t) :
  NetworkAddress.has_tls_suffix s = false ->
  NetworkAddress.parse s = Returns x ->
  NetworkAddress.isTLS x = false
  /\ (exists x',
         NetworkAddress.parse (s ++ txt ":tls") = Returns x'
         /\ NetworkAddress.isTLS x' = true
         /\ NetworkAddress.ip x' = NetworkAddress.ip x
         /\ NetworkAddress.port x' = NetworkAddress.port x
         /\ exists pre, NetworkAddress.toString x' = pre ++ txt ":tls")
  /\ (forall t, NetworkAddress.has_tls_suffix t = true
                <-> exists f, f <> [] /\ t = f ++ txt ":tls").
Proof.
  intros T H. destruct (parse_shape s x H) as (f & address & p & Hf & Es & E & ->).
  rewrite T in Es. subst f. rewrite T. split; [apply isTLS_make|]. split.
  - exists (NetworkAddress.make address (to_uint16 p) true true).
    rewrite parse_with_suffix by assumption. split; [apply E|].
    split; [apply isTLS_make|]. split; [reflexivity|]. split; [reflexivity|].
    unfold NetworkAddress.toString. rewrite isTLS_make.
    change (c_str (txt ":tls")) with (txt ":tls").
    set (x' := NetworkAddress.make address (to_uint16 p) true true).
    destruct (NetworkAddress.isV6 x').
    + exists ("["%char :: c_str (IPAddress.toString (NetworkAddress.ip x'))
                ++ "]"%char :: ":"%char :: fmt_d (NetworkAddress.port x')).
      rewrite <- app_comm_cons, <- app_assoc, <- !app_comm_cons. reflexivity.
    + exists (c_str (IPAddress.toString (NetworkAddress.ip x'))
                ++ ":"%char :: fmt_d (NetworkAddress.port x')).
      rewrite <- app_assoc, <- app_comm_cons. reflexivity.
  - apply has_tls_suffix_iff.
Qed.

Lemma tls_suffix_symmetry_witness :
  NetworkAddress.isTLS (NetworkAddress.make_v4 2130706433 4500 true false) = false
  /\ (exists x',
         NetworkAddress.parse (txt "127.0.0.1:4500" ++ txt ":tls") = Returns x'
         /\ NetworkAddress.isTLS x' = true
         /\ NetworkAddress.ip x'
            = NetworkAddress.ip (NetworkAddress.make_v4 2130706433 4500 true false)
         /\ NetworkAddress.port x'
            = NetworkAddress.port (NetworkAddress.make_v4 2130706433 4500 true false)
         /\ exists pre, NetworkAddress.toString x' = pre ++ txt ":tls")
  /\ (forall t, NetworkAddress.has_tls_suffix t = true
                <-> exists f, f <> [] /\ t = f ++ txt ":tls").
Proof.
  apply (tls_suffix_symmetry (txt "127.0.0.1:4500")); vm_compute; reflexivity.
Defined.

(** ** IPv6 text: reading back what inet_ntop printed *)

Lemma lor_shiftl_low (q r k : Z) :
  0 <= k -> 0 <= r < 2 ^ k -> Z.lor (Z.shiftl q k) r = q * 2 ^ k + r.
Proof.
  intros Hk Hr.
  assert (D : Z.land (Z.shiftl q k) r = 0).
  { apply Z.bits_inj'. intros n Hn. rewrite Z.land_spec, Z.bits_0.
    destruct (Z.ltb_spec n k) as [L|L].
    - rewrite Z.shiftl_spec_low by assumption. reflexivity.
    - rewrite <- (Z.mod_small r (2 ^ k)) by assumption.
      rewrite Z.mod_pow2_bits_high by lia. apply andb_false_r. }
  rewrite <- Z.lxor_lor by assumption.
  rewrite <- Z.add_nocarry_lxor by assumption.
  rewrite Z.shiftl_mul_pow2 by assumption. reflexivity.
Qed.

Lemma digit_char_hex (d : Z) : 0 <= d < 16 -> hex_digit_value (digit_char d) = Some d.
Proof.
  intros H.
  assert (E : d = 0 \/ d = 1 \/ d = 2 \/ d = 3 \/ d = 4 \/ d = 5 \/ d = 6 \/ d = 7
              \/ d = 8 \/ d = 9 \/ d = 10 \/ d = 11 \/ d = 12 \/ d = 13 \/ d = 14
              \/ d = 15) by lia.
  repeat (destruct E as [->|E]; [reflexivity|]). subst d. reflexivity.
Qed.

Lemma pton6_loop_hex_digit (r q : Z) (k : nat) (acc curtok : text) (tmp : list Z)
      (colonp : option nat) :
  0 <= r < 16 -> 0 <= q -> q * 16 + r < 65536 -> (k < 4)%nat ->
  inet_pton6_loop (digit_char r :: acc) curtok tmp colonp k q
  = inet_pton6_loop acc curtok tmp colonp (S k) (q * 16 + r).
Proof.
  intros Hr Hq B Hk. cbn [inet_pton6_loop]. rewrite digit_char_hex by assumption.
  rewrite (proj2 (Nat.eqb_neq k 4)) by lia.
  rewrite lor_shiftl_low by (change (2 ^ 4) with 16; lia). change (2 ^ 4) with 16.
  rewrite Z.gtb_ltb, (proj2 (Z.ltb_ge 65535 (q * 16 + r))) by lia. reflexivity.
Qed.

Lemma pton6_hex_fuel (fuel : nat) (n : Z) :
  0 <= n < 2 ^ Z.of_nat (S fuel) -> n < 65536 ->
  exists k, hex_width k n /\
    forall acc curtok tmp colonp,
      inet_pton6_loop (digits_fuel (S fuel) 16 n acc) curtok tmp colonp 0 0
      = inet_pton6_loop acc curtok tmp colonp k n.
Proof.
  revert n; induction fuel as [|f IH]; intros n H B.
  - assert (n < 16) by (change (2 ^ Z.of_nat 1) with 2 in H; lia).
    exists 1%nat. split; [left; split; [reflexivity|lia]|]. intros.
    cbn [digits_fuel]. rewrite (proj2 (Z.ltb_lt n 16)) by lia.
    rewrite Z.mod_small by lia.
    rewrite pton6_loop_hex_digit by lia. reflexivity.
  - destruct (Z.ltb_spec n 16) as [L|L].
    + exists 1%nat. split; [left; split; [reflexivity|lia]|]. intros.
      cbn [digits_fuel]. rewrite (proj2 (Z.ltb_lt n 16)) by lia.
      rewrite Z.mod_small by lia.
      rewrite pton6_loop_hex_digit by lia. reflexivity.
    + pose proof (Z.div_mod n 16 ltac:(lia)) as E.
      pose proof (Z.mod_pos_bound n 16 ltac:(lia)) as R.
      destruct (IH (n / 16)) as (k & W & K).
      { pose proof (Nat2Z.is_nonneg f).
        rewrite Nat2Z.inj_succ, Z.pow_succ_r in H by lia.
        rewrite Nat2Z.inj_succ, Z.pow_succ_r in H by lia.
        rewrite Nat2Z.inj_succ, Z.pow_succ_r by lia. lia. }
      { lia. }
      exists (S k). split.
      * unfold hex_width in *. lia.
      * intros. change (digits_fuel (S (S f)) 16 n acc)
          with (if n <? 16 then digit_char (n mod 16) :: acc
                else digits_fuel (S f) 16 (n / 16) (digit_char (n mod 16) :: acc)).
        rewrite (proj2 (Z.ltb_ge n 16)) by lia. rewrite K.
        rewrite pton6_loop_hex_digit; [f_equal; lia|lia|lia|lia|unfold hex_width in W; lia].
Qed.

Lemma fmt_x_group (w : Z) :
  0 <= w < 65536 ->
  exists k, (1 <= k <= 4)%nat /\
    forall rest curtok tmp colonp,
      inet_pton6_loop (fmt_x w ++ rest) curtok tmp colonp 0 0
      = inet_pton6_loop rest curtok tmp colonp k w.
Proof.
  intros H. destruct (pton6_hex_fuel (Z.to_nat (Z.log2 w)) w) as (k & W & K).
  - split; [lia|]. apply fuel_enough. lia.
  - lia.
  - exists k. split; [unfold hex_width in W; lia|]. intros.
    unfold fmt_x, digits. rewrite <- digits_fuel_app. apply K.
Qed.

Lemma group_bytes_length (w : Z) : length (group_bytes w) = 2%nat.
Proof. reflexivity. Qed.

Lemma fmt_x_head (w : Z) :
  0 <= w -> exists c r d, fmt_x w = c :: r /\ hex_digit_value c = Some d.
Proof.
  intros H. destruct (digits_nonempty 16 w) as (c & r & E).
  assert (F : Forall (fun c => exists d, hex_digit_value c = Some d) (digits 16 w)).
  { apply digits_fuel_Forall; [|lia|constructor].
    intros d Hd. exists d. apply digit_char_hex, Hd. }
  unfold fmt_x. rewrite E in *. inversion F as [|? ? [d D] _]. exists c, r, d. auto.
Qed.

Lemma hex_digit_not_colon (c : ascii) (d : Z) :
  hex_digit_value c = Some d -> Ascii.eqb c ":" = false.
Proof.
  intros H. destruct (Ascii.eqb c ":") eqn:E; [|reflexivity].
  apply Ascii.eqb_eq in E. subst c. discriminate H.
Qed.

(** A group followed by a colon and more text. *)
Lemma pton6_group (w : Z) (rest curtok : text) (tmp : list Z) (colonp : option nat) :
  0 <= w < 65536 -> rest <> [] -> (length tmp + 2 <= 16)%nat ->
  inet_pton6_loop (fmt_x w ++ ":"%char :: rest) curtok tmp colonp 0 0
  = inet_pton6_loop rest rest (tmp ++ group_bytes w) colonp 0 0.
Proof.
  intros H R L. destruct (fmt_x_group w H) as (k & K & E). rewrite E.
  destruct rest as [|c r]; [contradiction|]. destruct k as [|k]; [lia|].
  cbn [inet_pton6_loop hex_digit_value code nat_of_ascii Ascii.eqb Bool.eqb Nat.eqb].
  rewrite (proj2 (Nat.ltb_ge 16 (length tmp + 2))) by lia. reflexivity.
Qed.

(** The last group of the text. *)
Lemma pton6_last_group (w : Z) (curtok : text) (tmp : list Z) (colonp : option nat) :
  0 <= w < 65536 -> (length tmp + 2 <= 16)%nat ->
  inet_pton6_loop (fmt_x w) curtok tmp colonp 0 0
  = inet_pton6_finish (tmp ++ group_bytes w) colonp 0 0.
Proof.
  intros H L. destruct (fmt_x_group w H) as (k & K & E).
  rewrite <- (app_nil_r (fmt_x w)), E. destruct k as [|k]; [lia|].
  cbn [inet_pton6_loop]. unfold inet_pton6_finish.
  replace (0 <? S k)%nat with true by (symmetry; apply Nat.ltb_lt; lia).
  replace (0 <? 0)%nat with false by reflexivity.
  rewrite (proj2 (Nat.ltb_ge 16 (length tmp + 2))) by lia. reflexivity.
Qed.

(** The second colon of a [::]. *)
Lemma pton6_double_colon (rest curtok : text) (tmp : list Z) :
  inet_pton6_loop (":"%char :: rest) curtok tmp None 0 0
  = inet_pton6_loop rest rest tmp (Some (length tmp)) 0 0.
Proof. reflexivity. Qed.

Lemma pton6_start_group (w : Z) (rest : text) :
  0 <= w ->
  inet_pton6 (fmt_x w ++ rest)
  = inet_pton6_loop (fmt_x w ++ rest) (fmt_x w ++ rest) [] None 0 0.
Proof.
  intros H. destruct (fmt_x_head w H) as (c & r & d & E & D). rewrite E.
  cbn [app inet_pton6]. rewrite (hex_digit_not_colon c d D). reflexivity.
Qed.

Lemma pton6_start_colons (rest : text) :
  inet_pton6 (":"%char :: ":"%char :: rest)
  = inet_pton6_loop rest rest [] (Some 0%nat) 0 0.
Proof. reflexivity. Qed.

(** *** The dotted quad inside an IPv6 text *)

Lemma pton4_digits_fuel (fuel : nat) (n : Z) (acc : text) (done : list Z) (octets : Z) :
  0 <= n < 2 ^ Z.of_nat (S fuel) -> n <= 255 -> octets + 1 <= 4 ->
  inet_pton4_loop (digits_fuel (S fuel) 10 n acc) done 0 false octets
  = inet_pton4_loop acc done n true (octets + 1).
Proof.
  revert n acc; induction fuel as [|f IH]; intros n acc H B O.
  - assert (n < 10) by (change (2 ^ Z.of_nat 1) with 2 in H; lia).
    cbn [digits_fuel]. rewrite (proj2 (Z.ltb_lt n 10)) by lia.
    rewrite Z.mod_small by lia. cbn [inet_pton4_loop].
    destruct (digit_char_decimal n) as [D V]; [lia|]. rewrite D, V.
    cbn [andb negb]. change (0 * 10 + n) with (0 + n). rewrite Z.add_0_l.
    rewrite !Z.gtb_ltb, (proj2 (Z.ltb_ge 255 n)), (proj2 (Z.ltb_ge 4 (octets + 1))) by lia.
    reflexivity.
  - change (digits_fuel (S (S f)) 10 n acc)
      with (if n <? 10 then digit_char (n mod 10) :: acc
            else digits_fuel (S f) 10 (n / 10) (digit_char (n mod 10) :: acc)).
    pose proof (Z.div_mod n 10 ltac:(lia)) as E.
    pose proof (Z.mod_pos_bound n 10 ltac:(lia)) as R.
    destruct (Z.ltb_spec n 10) as [L|L].
    + rewrite Z.mod_small by lia. cbn [inet_pton4_loop].
      destruct (digit_char_decimal n) as [D V]; [lia|]. rewrite D, V.
      cbn [andb negb]. change (0 * 10 + n) with (0 + n). rewrite Z.add_0_l.
      rewrite !Z.gtb_ltb, (proj2 (Z.ltb_ge 255 n)), (proj2 (Z.ltb_ge 4 (octets + 1))) by lia.
      reflexivity.
    + rewrite IH; [|apply div_fuel; lia|lia|lia].
      cbn [inet_pton4_loop].
      destruct (digit_char_decimal (n mod 10)) as [D V]; [lia|]. rewrite D, V.
      rewrite (proj2 (Z.eqb_neq (n / 10) 0)) by lia. cbn [andb negb].
      replace (n / 10 * 10 + n mod 10) with n by lia.
      rewrite Z.gtb_ltb, (proj2 (Z.ltb_ge 255 n)) by lia. reflexivity.
Qed.

Lemma pton4_octet (n : Z) (rest : text) (done : list Z) (octets : Z) :
  0 <= n <= 255 -> octets + 1 <= 4 ->
  inet_pton4_loop (fmt_u n ++ rest) done 0 false octets
  = inet_pton4_loop rest done n true (octets + 1).
Proof.
  intros H O. unfold fmt_u, digits. rewrite <- digits_fuel_app.
  apply pton4_digits_fuel; try lia. split; [lia|]. apply fuel_enough. lia.
Qed.

Lemma inet_pton4_ntop4 (a b c d : Z) :
  0 <= a <= 255 -> 0 <= b <= 255 -> 0 <= c <= 255 -> 0 <= d <= 255 ->
  inet_pton4 (inet_ntop4 [a; b; c; d]) = Some [a; b; c; d].
Proof.
  intros Ha Hb Hc Hd. unfold inet_pton4, inet_ntop4. cbn [nth].
  rewrite pton4_octet by lia. cbn [inet_pton4_loop isdigit code nat_of_ascii].
  cbn. rewrite pton4_octet by lia. cbn. rewrite pton4_octet by lia. cbn.
  rewrite <- (app_nil_r (fmt_u d)). rewrite pton4_octet by lia. reflexivity.
Qed.

Lemma pton6_dec_fuel (fuel : nat) (n : Z) :
  0 <= n < 2 ^ Z.of_nat (S fuel) -> n < 1000 ->
  exists k v, dec_width k n v /\
    forall acc curtok tmp colonp,
      inet_pton6_loop (digits_fuel (S fuel) 10 n acc) curtok tmp colonp 0 0
      = inet_pton6_loop acc curtok tmp colonp k v.
Proof.
  revert n; induction fuel as [|f IH]; intros n H B.
  - assert (n < 10) by (change (2 ^ Z.of_nat 1) with 2 in H; lia).
    exists 1%nat, n. split; [left; lia|]. intros.
    cbn [digits_fuel]. rewrite (proj2 (Z.ltb_lt n 10)) by lia.
    rewrite Z.mod_small by lia.
    rewrite pton6_loop_hex_digit by lia. reflexivity.
  - destruct (Z.ltb_spec n 10) as [L|L].
    + exists 1%nat, n. split; [left; lia|]. intros.
      cbn [digits_fuel]. rewrite (proj2 (Z.ltb_lt n 10)) by lia.
      rewrite Z.mod_small by lia.
      rewrite pton6_loop_hex_digit by lia. reflexivity.
    + pose proof (Z.div_mod n 10 ltac:(lia)) as E.
      pose proof (Z.mod_pos_bound n 10 ltac:(lia)) as R.
      destruct (IH (n / 10)) as (k & v & W & K); [apply div_fuel; lia|lia|].
      exists (S k), (v * 16 + n mod 10). split.
      * unfold dec_width in *. lia.
      * intros. change (digits_fuel (S (S f)) 10 n acc)
          with (if n <? 10 then digit_char (n mod 10) :: acc
                else digits_fuel (S f) 10 (n / 10) (digit_char (n mod 10) :: acc)).
        rewrite (proj2 (Z.ltb_ge n 10)) by lia. rewrite K.
        unfold dec_width in W. rewrite pton6_loop_hex_digit by lia. reflexivity.
Qed.

Lemma pton6_finish_no_pending (tmp : list Z) (colonp : option nat) (v : Z) :
  inet_pton6_finish tmp colonp 0 v = inet_pton6_finish tmp colonp 0 0.
Proof. reflexivity. Qed.

Lemma pton6_dotted_tail (a : Z) (rest curtok : text) (quad tmp : list Z)
      (colonp : option nat) :
  0 <= a <= 255 -> inet_pton4 curtok = Some quad -> (length tmp + 4 <= 16)%nat ->
  inet_pton6_loop (fmt_u a ++ "."%char :: rest) curtok tmp colonp 0 0
  = inet_pton6_finish (tmp ++ quad) colonp 0 0.
Proof.
  intros Ha P L.
  destruct (pton6_dec_fuel (Z.to_nat (Z.log2 a)) a) as (k & v & W & K).
  { split; [lia|]. apply fuel_enough. lia. }
  { lia. }
  unfold fmt_u, digits. rewrite <- digits_fuel_app, K.
  cbn [inet_pton6_loop hex_digit_value code nat_of_ascii Ascii.eqb Bool.eqb].
  cbn [Z.of_nat Pos.of_succ_nat Pos.succ Z.leb Z.compare Pos.compare Pos.compare_cont andb].
  rewrite (proj2 (Nat.leb_le (length tmp + 4) 16)) by lia. rewrite P.
  reflexivity.
Qed.

(** A dotted quad at the end of an IPv6 text. *)
Lemma pton6_embedded_v4 (a b c d : Z) (tmp : list Z) (colonp : option nat) :
  0 <= a <= 255 -> 0 <= b <= 255 -> 0 <= c <= 255 -> 0 <= d <= 255 ->
  (length tmp + 4 <= 16)%nat ->
  inet_pton6_loop (inet_ntop4 [a; b; c; d]) (inet_ntop4 [a; b; c; d]) tmp colonp 0 0
  = inet_pton6_finish (tmp ++ [a; b; c; d]) colonp 0 0.
Proof.
  intros Ha Hb Hc Hd L.
  pose proof (inet_pton4_ntop4 a b c d Ha Hb Hc Hd) as P.
  unfold inet_ntop4 at 1. cbn [nth].
  apply pton6_dotted_tail; assumption.
Qed.

(** *** Words and bytes *)

Lemma word_of_bytes (hi lo : Z) :
  is_byte hi -> is_byte lo ->
  0 <= Z.lor (Z.shiftl hi 8) lo < 65536
  /\ group_bytes (Z.lor (Z.shiftl hi 8) lo) = [hi; lo]
  /\ (Z.lor (Z.shiftl hi 8) lo = 0 -> hi = 0 /\ lo = 0).
Proof.
  unfold is_byte. intros Hh Hl.
  rewrite lor_shiftl_low by (change (2 ^ 8) with 256; lia). change (2 ^ 8) with 256.
  split; [lia|]. split; [|lia].
  unfold group_bytes. rewrite !byte_land, Z.shiftr_div_pow2 by lia.
  change (2 ^ 8) with 256.
  assert (E : (hi * 256 + lo) / 256 = hi).
  { rewrite Z.div_add_l by lia. rewrite Z.div_small by lia. lia. }
  rewrite E, Z.mod_small by lia.
  rewrite Z.add_comm, Z.mod_add, Z.mod_small by lia. reflexivity.
Qed.

(** *** The run of zeros chosen by inet_ntop *)

Lemma find_run_loop_flags (ws : list Z) (i : Z) (best cur : run) :
  find_run_loop (map zero_flag ws) i best cur = find_run_loop ws i best cur.
Proof.
  revert i best cur; induction ws as [|w ws IH]; intros i best cur; [reflexivity|].
  cbn [map find_run_loop]. rewrite !IH.
  unfold zero_flag at 1. destruct (w =? 0); reflexivity.
Qed.

Lemma best_run_flags (ws : list Z) : best_run (map zero_flag ws) = best_run ws.
Proof. unfold best_run. rewrite find_run_loop_flags. reflexivity. Qed.

Lemma best_run_zero (w0 w1 w2 w3 w4 w5 w6 w7 : Z) :
  run_zero [w0; w1; w2; w3; w4; w5; w6; w7] (best_run [w0; w1; w2; w3; w4; w5; w6; w7]) = true.
Proof.
  rewrite <- best_run_flags. unfold run_zero, zero_flag.
  cbn [map combine forallb fst snd].
  destruct (w0 =? 0); destruct (w1 =? 0); destruct (w2 =? 0); destruct (w3 =? 0);
    destruct (w4 =? 0); destruct (w5 =? 0); destruct (w6 =? 0); destruct (w7 =? 0);
    vm_compute; reflexivity.
Qed.

#[local] Arguments inet_ntop4 : simpl never.
#[local] Arguments group_bytes : simpl never.

(** *** What inet_pton returns *)

Lemma isdigit_val (c : ascii) : isdigit c = true -> 0 <= digit_val c <= 9.
Proof. unfold isdigit, digit_val. lia. Qed.

Lemma inet_pton4_loop_bytes (src : text) (done : list Z) (cur : Z) (saw : bool)
      (octets : Z) (quad : list Z) :
  Forall is_byte done -> is_byte cur ->
  octets = Z.of_nat (length done) + (if saw then 1 else 0) ->
  (saw = false -> octets <= 3) -> octets <= 4 ->
  inet_pton4_loop src done cur saw octets = Some quad ->
  length quad = 4%nat /\ Forall is_byte quad.
Proof.
  revert done cur saw octets; induction src as [|ch src IH];
    intros done cur saw octets Fd Fc Eo Hs Ho; cbn [inet_pton4_loop].
  - destruct (Z.ltb_spec octets 4); [discriminate|]. intros E; injection E as <-.
    destruct saw; [|specialize (Hs eq_refl); lia].
    split.
    + rewrite length_app. cbn [length]. lia.
    + apply Forall_app. split; [assumption|]. constructor; [assumption|constructor].
  - destruct (isdigit ch) eqn:D.
    + pose proof (isdigit_val ch D) as V.
      destruct (saw && (cur =? 0)); [discriminate|].
      rewrite Z.gtb_ltb. destruct (Z.ltb_spec 255 (cur * 10 + digit_val ch)); [discriminate|].
      assert (Fn : is_byte (cur * 10 + digit_val ch)) by (unfold is_byte in *; lia).
      destruct saw; cbn [negb].
      * apply IH; assumption.
      * rewrite Z.gtb_ltb. destruct (Z.ltb_spec 4 (octets + 1)); [discriminate|].
        apply IH; try assumption; try lia; try discriminate.
    + destruct (Ascii.eqb ch "." && saw) eqn:E; [|discriminate].
      apply andb_prop in E. destruct E as [_ ->].
      destruct (Z.eqb_spec octets 4); [discriminate|].
      apply IH.
      * apply Forall_app. split; [assumption|]. constructor; [assumption|constructor].
      * unfold is_byte. lia.
      * rewrite length_app. cbn [length]. lia.
      * intros _. lia.
      * lia.
Qed.

Lemma inet_pton4_bytes (src : text) (quad : list Z) :
  inet_pton4 src = Some quad -> length quad = 4%nat /\ Forall is_byte quad.
Proof.
  apply inet_pton4_loop_bytes; try reflexivity; try lia.
  - constructor.
  - unfold is_byte. lia.
Qed.

Lemma group_bytes_bytes (val : Z) : Forall is_byte (group_bytes val).
Proof.
  unfold group_bytes, is_byte. rewrite !byte_land.
  repeat constructor; apply Z.mod_pos_bound; lia.
Qed.

Lemma inet_pton6_finish_bytes (tmp : list Z) (colonp : option nat) (xd : nat) (val : Z)
      (bytes : list Z) :
  Forall is_byte tmp -> (length tmp <= 16)%nat ->
  (forall cp, colonp = Some cp -> (cp <= length tmp)%nat) ->
  inet_pton6_finish tmp colonp xd val = Some bytes ->
  length bytes = 16%nat /\ Forall is_byte bytes.
Proof.
  intros F L C. unfold inet_pton6_finish.
  assert (K : forall tmp1, Forall is_byte tmp1 -> (length tmp1 <= 16)%nat ->
                           (forall cp, colonp = Some cp -> (cp <= length tmp1)%nat) ->
                           match colonp with
                           | Some cp =>
                               if (length tmp1 =? 16)%nat then None
                               else Some (firstn cp tmp1 ++ repeat 0 (16 - length tmp1)
                                                 ++ skipn cp tmp1)
                           | None => if (length tmp1 =? 16)%nat then Some tmp1 else None
                           end = Some bytes ->
                           length bytes = 16%nat /\ Forall is_byte bytes).
  { intros tmp1 F1 L1 C1. destruct colonp as [cp|].
    - specialize (C1 cp eq_refl).
      destruct (Nat.eqb_spec (length tmp1) 16); [discriminate|].
      remember (16 - length tmp1)%nat as pad eqn:Epad.
      intros E; injection E as <-. split.
      + rewrite !length_app, length_firstn, repeat_length, length_skipn. lia.
      + rewrite <- (firstn_skipn cp tmp1) in F1. apply Forall_app in F1.
        destruct F1 as [Ff Fs].
        apply Forall_app. split; [assumption|].
        apply Forall_app. split; [|assumption].
        apply Forall_forall. intros x Hx. apply repeat_spec in Hx. subst x.
        unfold is_byte. lia.
    - destruct (Nat.eqb_spec (length tmp1) 16); [|discriminate].
      intros E; injection E as <-. split; assumption. }
  destruct (0 <? xd)%nat.
  - destruct (Nat.ltb_spec 16 (length tmp + 2)); [discriminate|].
    apply K.
    + apply Forall_app. split; [assumption|apply group_bytes_bytes].
    + rewrite length_app, group_bytes_length. lia.
    + intros cp E. rewrite length_app. specialize (C cp E). lia.
  - apply K; assumption.
Qed.

Lemma inet_pton6_loop_bytes (src curtok : text) (tmp : list Z) (colonp : option nat)
      (xd : nat) (val : Z) (bytes : list Z) :
  Forall is_byte tmp -> (length tmp <= 16)%nat ->
  (forall cp, colonp = Some cp -> (cp <= length tmp)%nat) ->
  inet_pton6_loop src curtok tmp colonp xd val = Some bytes ->
  length bytes = 16%nat /\ Forall is_byte bytes.
Proof.
  revert curtok tmp colonp xd val; induction src as [|ch src IH];
    intros curtok tmp colonp xd val F L C; cbn [inet_pton6_loop].
  - apply inet_pton6_finish_bytes; assumption.
  - destruct (hex_digit_value ch) as [digit|].
    + destruct (xd =? 4)%nat; [discriminate|].
      destruct (_ >? 65535); [discriminate|]. apply IH; assumption.
    + destruct (Ascii.eqb ch ":").
      * destruct (xd =? 0)%nat.
        -- destruct colonp; [discriminate|]. apply IH; try assumption.
           intros cp E; injection E as <-. lia.
        -- destruct src as [|c r]; [discriminate|].
           destruct (Nat.ltb_spec 16 (length tmp + 2)); [discriminate|].
           apply IH.
           ++ apply Forall_app. split; [assumption|apply group_bytes_bytes].
           ++ rewrite length_app, group_bytes_length. lia.
           ++ intros cp E. rewrite length_app. specialize (C cp E). lia.
      * destruct (Ascii.eqb ch "." && (length tmp + 4 <=? 16)%nat) eqn:E; [|discriminate].
        apply andb_prop in E. destruct E as [_ E]. apply Nat.leb_le in E.
        destruct (inet_pton4 curtok) as [quad|] eqn:Q; [|discriminate].
        destruct (inet_pton4_bytes _ _ Q) as [Lq Fq].
        apply inet_pton6_finish_bytes.
        -- apply Forall_app. split; assumption.
        -- rewrite length_app. lia.
        -- intros cp E'. rewrite length_app. specialize (C cp E'). lia.
Qed.

Lemma inet_pton6_bytes (src : text) (bytes : list Z) :
  inet_pton6 src = Some bytes -> length bytes = 16%nat /\ Forall is_byte bytes.
Proof.
  unfold inet_pton6. destruct src as [|c src1]; [discriminate|].
  destruct (Ascii.eqb c ":").
  - destruct src1 as [|c2 r]; [discriminate|]. destruct (Ascii.eqb c2 ":"); [|discriminate].
    apply inet_pton6_loop_bytes; [constructor|cbn; lia|discriminate].
  - apply inet_pton6_loop_bytes; [constructor|cbn; lia|discriminate].
Qed.

Section Ipv6TextRoundTrip.

#[local] Arguments inet_pton6 : simpl never.
#[local] Arguments inet_pton6_loop : simpl never.
#[local] Arguments inet_pton6_finish : simpl never.

Lemma fmt_x_app_nonempty (w : Z) (rest : text) : fmt_x w ++ rest <> [].
Proof.
  unfold fmt_x. destruct (digits_nonempty 16 w) as (c & r & ->). discriminate.
Qed.

Lemma fmt_x_nonempty (w : Z) : fmt_x w <> [].
Proof.
  unfold fmt_x. destruct (digits_nonempty 16 w) as (c & r & ->). discriminate.
Qed.

Lemma inet_ntop4_nonempty (q : list Z) : inet_ntop4 q <> [].
Proof.
  unfold inet_ntop4, fmt_u. destruct (digits_nonempty 10 (nth 0 q 0)) as (c & r & ->).
  discriminate.
Qed.

Ltac pton6_length :=
  rewrite ?length_app, ?group_bytes_length; cbn [length Nat.add]; lia.

Ltac pton6_rest :=
  first [apply fmt_x_app_nonempty | apply fmt_x_nonempty | apply inet_ntop4_nonempty
        | discriminate].

Ltac pton6_step :=
  first
    [ rewrite pton6_double_colon
    | rewrite pton6_group; [|lia|pton6_rest|pton6_length]
    | rewrite pton6_embedded_v4; [|lia|lia|lia|lia|pton6_length]
    | rewrite pton6_last_group; [|lia|pton6_length] ].

Ltac pton6_start :=
  first [ rewrite pton6_start_colons | rewrite pton6_start_group by lia ].

Ltac zero_words :=
  repeat match goal with
         | H : (_ && _) = true |- _ => apply andb_prop in H; destruct H
         | H : (?w =? 0) = true |- _ => apply Z.eqb_eq in H
         end.

Ltac pton6_case :=
  unfold encapsulated_v4, in_run; cbn;
  try match goal with
      | |- context [?w =? 65535] =>
          destruct (Z.eqb_spec w 65535);
          [ subst;
            match goal with
            | G : group_bytes 65535 = _ |- _ => vm_compute in G; injection G as <- <-
            end
          | ]
      end;
  cbn;
  repeat (rewrite <- app_assoc || rewrite <- app_comm_cons || rewrite app_nil_r);
  cbn [app];
  pton6_start; repeat pton6_step;
  repeat match goal with G : group_bytes _ = _ |- _ => rewrite G; clear G end;
  reflexivity.

(** What inet_ntop prints for sixteen bytes, inet_pton reads back as the
    same sixteen bytes. *)
Lemma inet_pton6_ntop6 (bytes : list Z) :
  length bytes = 16%nat -> Forall is_byte bytes ->
  inet_pton6 (inet_ntop6 bytes) = Some bytes.
Proof.
  intros L F.
  do 16 (destruct bytes as [|? bytes]; [discriminate L|]).
  destruct bytes; [clear L|discriminate L].
  repeat match goal with
         | H : Forall _ (_ :: _) |- _ => inversion H; clear H; subst
         end.
  unfold inet_ntop6. cbn [words_of].
  repeat match goal with
         | |- context [Z.lor (Z.shiftl ?hi 8) ?lo] =>
             let R := fresh "R" in let G := fresh "G" in let Z := fresh "Z" in
             destruct (word_of_bytes hi lo) as (R & G & Z); [assumption|assumption|];
             generalize dependent (Z.lor (Z.shiftl hi 8) lo); intros
         end.
  match goal with
  | |- context [best_run [?a; ?b; ?c; ?d; ?e; ?f; ?g; ?h]] =>
      pose proof (best_run_zero a b c d e f g h) as RZ;
      destruct (best_run [a; b; c; d; e; f; g; h]) as [rb rl]
  end.
  unfold run_zero in RZ. cbn [base len] in RZ. unfold is_byte in *.
  destruct (Z.eqb_spec rb (-1)) as [->|N].
  - clear RZ. pton6_case.
  - cbn [orb] in RZ. zero_words.
    repeat match goal with
           | H : (_ <=? _) = true |- _ => apply Z.leb_le in H
           end.
    assert (Eb : rb = 0 \/ rb = 1 \/ rb = 2 \/ rb = 3 \/ rb = 4 \/ rb = 5 \/ rb = 6) by lia.
    assert (El : rl = 2 \/ rl = 3 \/ rl = 4 \/ rl = 5 \/ rl = 6 \/ rl = 7 \/ rl = 8) by lia.
    destruct Eb as [->|[->|[->|[->|[->|[->| ->]]]]]];
      destruct El as [->|[->|[->|[->|[->|[->| ->]]]]]];
      try (exfalso; lia);
      cbn in H0; zero_words;
      repeat match goal with
             | Hw : ?w = 0, Hz : ?w = 0 -> _ |- _ => destruct (Hz Hw); clear Hz
             end;
      subst;
      pton6_case.
Qed.

End Ipv6TextRoundTrip.

(** *** The characters inet_ntop prints *)

Lemma digit_char_plain (d : Z) : 0 <= d < 16 -> plain_char (digit_char d).
Proof.
  intros H.
  assert (E : d = 0 \/ d = 1 \/ d = 2 \/ d = 3 \/ d = 4 \/ d = 5 \/ d = 6 \/ d = 7
              \/ d = 8 \/ d = 9 \/ d = 10 \/ d = 11 \/ d = 12 \/ d = 13 \/ d = 14
              \/ d = 15) by lia.
  repeat (destruct E as [->|E]; [repeat split; discriminate|]).
  subst d. repeat split; discriminate.
Qed.

Lemma digits_plain (base n : Z) : 0 < base <= 16 -> Forall plain_char (digits base n).
Proof.
  intros H. apply digits_fuel_Forall; [|lia|constructor].
  intros d Hd. apply digit_char_plain. lia.
Qed.

Lemma inet_ntop4_plain (q : list Z) : Forall plain_char (inet_ntop4 q).
Proof.
  unfold inet_ntop4, fmt_u.
  repeat (apply Forall_app; split; [apply digits_plain; lia|];
          constructor; [repeat split; discriminate|]).
  apply digits_plain. lia.
Qed.

Lemma inet_ntop6_loop_plain (src words rest : list Z) (best : run) (i : Z) :
  Forall plain_char (inet_ntop6_loop src words rest best i).
Proof.
  assert (C : forall b : bool, Forall plain_char (if b then [":"%char] else [])).
  { intros [|]; repeat constructor; discriminate. }
  revert i; induction rest as [|w rest IH]; intros i; cbn [inet_ntop6_loop];
    [constructor|].
  destruct (in_run best i).
  - apply Forall_app. split; [apply C|apply IH].
  - apply Forall_app. split; [apply C|].
    destruct (encapsulated_v4 best words i); [apply inet_ntop4_plain|].
    apply Forall_app. split; [apply digits_plain; lia|apply IH].
Qed.

Lemma inet_ntop6_plain (bytes : list Z) : Forall plain_char (inet_ntop6 bytes).
Proof.
  unfold inet_ntop6. apply Forall_app. split; [apply inet_ntop6_loop_plain|].
  destruct (_ && _); repeat constructor; discriminate.
Qed.

(** *** Searching and cutting *)

Lemma find_from_skip (c : ascii) (t r : text) (i : nat) :
  Forall (fun x => x <> c) t -> find_from c (t ++ c :: r) i = Some (i + length t)%nat.
Proof.
  intros F. revert i; induction F as [|x t Hx _ IH]; intros i; cbn [app find_from length].
  - rewrite Ascii.eqb_refl. f_equal. lia.
  - rewrite (proj2 (Ascii.eqb_neq x c) Hx), IH. f_equal. lia.
Qed.

Lemma before_percent_plain (t : text) :
  Forall (fun x => x <> "%"%char) t -> Asio.before_percent t = t.
Proof.
  induction 1 as [|x t Hx _ IH]; cbn [Asio.before_percent]; [reflexivity|].
  rewrite (proj2 (Ascii.eqb_neq x "%") Hx), IH. reflexivity.
Qed.

(** The bracketed branch on a text ["[T]:P"] whose [T] has no closing
    bracket: the port is whatever [std::stoi] makes of [P], the address
    whatever [IPAddress::parse] makes of [T]. *)
Lemma parse_endpoint_bracketed (t p : text) (isTLS : bool) :
  Forall (fun x => x <> "]"%char) t ->
  NetworkAddress.parse_endpoint ("["%char :: t ++ "]"%char :: ":"%char :: p) isTLS
  = (port <- stoi p ;;
     addr <- IPAddress.parse t ;;
     match addr with
     | None => Throws connection_string_invalid
     | Some address => Returns (NetworkAddress.make address (to_uint16 port) true isTLS)
     end).
Proof.
  intros F. unfold NetworkAddress.parse_endpoint, find_first_of, substr.
  change (at_ ("["%char :: t ++ "]"%char :: ":"%char :: p) 0) with "["%char.
  cbn [skipn find_from Ascii.eqb Bool.eqb].
  rewrite find_from_skip by assumption.
  assert (A : at_ ("["%char :: t ++ "]"%char :: ":"%char :: p) (1 + length t + 1) = ":"%char).
  { unfold at_. replace (1 + length t + 1)%nat with (S (length t + 1)) by lia.
    cbn [nth]. rewrite app_nth2 by lia.
    replace (length t + 1 - length t)%nat with 1%nat by lia. reflexivity. }
  rewrite A. cbn [Ascii.eqb Bool.eqb negb andb].
  assert (L : (length ("["%char :: t ++ "]"%char :: ":"%char :: p) <? 1 + length t + 2)%nat
              = false).
  { apply Nat.ltb_ge. cbn [length]. rewrite length_app. cbn [length]. lia. }
  rewrite L.
  assert (L1 : (length ("["%char :: t ++ "]"%char :: ":"%char :: p) <? 1)%nat = false).
  { apply Nat.ltb_ge. cbn [length]. lia. }
  rewrite L1.
  assert (S2 : skipn (1 + length t + 2) ("["%char :: t ++ "]"%char :: ":"%char :: p) = p).
  { replace (1 + length t + 2)%nat with (S (length t + 2)) by lia. cbn [skipn].
    rewrite skipn_app, skipn_all2 by lia.
    replace (length t + 2 - length t)%nat with 2%nat by lia. reflexivity. }
  assert (S1 : firstn (1 + length t - 1) (t ++ "]"%char :: ":"%char :: p) = t).
  { replace (1 + length t - 1)%nat with (length t + 0)%nat by lia.
    rewrite firstn_app_2. cbn [firstn]. apply app_nil_r. }
  rewrite S2, S1. reflexivity.
Qed.

Lemma stoi_fmt_d (p : Z) : INT_MIN <= p <= INT_MAX -> stoi (fmt_d p) = Returns p.
Proof.
  intros H. unfold stoi. rewrite (c_str_no_nul _ (fmt_d_no_nul p)).
  rewrite <- (app_nil_r (fmt_d p)), scan_integer_fmt_d by exact I.
  rewrite (proj2 (in_int_range_iff p) H). reflexivity.
Qed.

(** *** Addresses that come out of a parse *)

Lemma lor_range (x y n : Z) :
  0 < n -> 0 <= x < 2 ^ n -> 0 <= y < 2 ^ n -> 0 <= Z.lor x y < 2 ^ n.
Proof.
  intros Hn Hx Hy. split; [apply Z.lor_nonneg; lia|].
  destruct (Z.eq_dec (Z.lor x y) 0) as [->|N]; [apply Z.pow_pos_nonneg; lia|].
  assert (P : 0 < Z.lor x y) by (pose proof (proj2 (Z.lor_nonneg x y)); lia).
  apply Z.log2_lt_pow2; [assumption|].
  rewrite Z.log2_lor by lia.
  assert (Lx : Z.log2 x < n).
  { destruct (Z.eq_dec x 0) as [->|]; [cbn; lia|]. apply Z.log2_lt_pow2; lia. }
  assert (Ly : Z.log2 y < n).
  { destruct (Z.eq_dec y 0) as [->|]; [cbn; lia|]. apply Z.log2_lt_pow2; lia. }
  lia.
Qed.

Lemma make_address_v4_range (s : text) (ulong : Z) :
  Asio.make_address_v4 s = Some ulong -> 0 <= ulong < 2 ^ 32.
Proof.
  unfold Asio.make_address_v4. destruct (inet_pton4 s) as [quad|] eqn:Q; [|discriminate].
  destruct (inet_pton4_bytes _ _ Q) as [L F].
  do 4 (destruct quad as [|? quad]; [discriminate L|]).
  destruct quad; [|discriminate L]. intros E; injection E as <-.
  repeat match goal with
         | H : Forall _ (_ :: _) |- _ => inversion H; clear H; subst
         end.
  unfold is_byte in *.
  repeat apply lor_range; try lia;
    rewrite Z.shiftl_mul_pow2 by lia;
    change (2 ^ 32) with 4294967296; change (2 ^ 24) with 16777216;
    change (2 ^ 16) with 65536; change (2 ^ 8) with 256; lia.
Qed.

Lemma IPAddress_parse_well_formed (str : text) (a : IPAddress.t) :
  IPAddress.parse str = Returns (Some a) -> well_formed a.
Proof.
  unfold IPAddress.parse, Asio.from_string, Asio.make_address_v6.
  destruct (inet_pton6 _) as [bytes|] eqn:P6.
  - cbn. intros E; injection E as <-. apply (inet_pton6_bytes _ _ P6).
  - destruct (Asio.make_address_v4 _) as [ulong|] eqn:P4; cbn; [|discriminate].
    intros E; injection E as <-. exists ulong. split; [|reflexivity].
    apply (make_address_v4_range _ _ P4).
Qed.

Lemma parse_endpoint_well_formed (f : text) (isTLS : bool) (x : NetworkAddress.t) :
  NetworkAddress.parse_endpoint f isTLS = Returns x -> well_formed (NetworkAddress.ip x).
Proof.
  unfold NetworkAddress.parse_endpoint.
  destruct (Ascii.eqb (at_ f 0) "[").
  - destruct (find_first_of f "]" 0) as [addrEnd|]; [|discriminate].
    destruct (negb _); [discriminate|].
    destruct (digits <- substr f (addrEnd + 2) None;; stoi digits) as [p| |];
      try discriminate.
    cbn [bind].
    destruct (substr f 1 (Some (addrEnd - 1)%nat)) as [inner| |]; try discriminate.
    cbn [bind].
    destruct (IPAddress.parse inner) as [[address|]| |] eqn:P; try discriminate.
    cbn [bind]. intros E; injection E as <-.
    apply (IPAddress_parse_well_formed _ _ P).
  - destruct (sscanf (c_str f) NetworkAddress.dotted_quad_format (-1))
      as [ret vals count|]; [|discriminate].
    destruct (_ || _); [discriminate|]. intros E; injection E as <-.
    eexists. split; [|reflexivity]. apply Z.mod_pos_bound. reflexivity.
Qed.

(** ** Round trip *)

Lemma byte_land_range (v : Z) : 0 <= Z.land v 255 <= 255.
Proof. rewrite byte_land. pose proof (Z.mod_pos_bound v 256). lia. Qed.

Lemma IPAddress_toString_plain (a : IPAddress.t) :
  Forall (fun c => c <> NUL) (IPAddress.toString a).
Proof.
  unfold IPAddress.toString. destruct (IPAddress.isV6 a).
  - eapply Forall_impl; [|apply inet_ntop6_plain]. intros c H. apply H.
  - repeat (apply Forall_app; split; [apply fmt_d_no_nul|]; constructor; [discriminate|]).
    apply fmt_d_no_nul.
Qed.

Lemma toString_text (x : NetworkAddress.t) :
  NetworkAddress.toString x = endpoint_text x ++ tls_text (NetworkAddress.isTLS x).
Proof.
  unfold NetworkAddress.toString, endpoint_text, tls_text.
  rewrite (c_str_no_nul _ (IPAddress_toString_plain (NetworkAddress.ip x))).
  assert (E : c_str (if NetworkAddress.isTLS x then txt ":tls" else txt "")
              = if NetworkAddress.isTLS x then txt ":tls" else []).
  { destruct (NetworkAddress.isTLS x); reflexivity. }
  rewrite E. destruct (NetworkAddress.isV6 x).
  - repeat (rewrite <- app_assoc || rewrite <- app_comm_cons). reflexivity.
  - repeat (rewrite <- app_assoc || rewrite <- app_comm_cons). reflexivity.
Qed.

(** Parsing a text that ends in a digit, with or without the suffix. *)
Lemma parse_with_tls_text (body : text) (isTLS : bool) :
  (exists pre c, body = pre ++ [c] /\ isdigit c = true) ->
  NetworkAddress.parse (body ++ tls_text isTLS) = NetworkAddress.parse_endpoint body isTLS.
Proof.
  intros (pre & c & E & D). destruct isTLS; cbn [tls_text].
  - apply parse_with_suffix. rewrite E. destruct pre; discriminate.
  - rewrite app_nil_r. apply parse_without_suffix.
    apply (last_digit_no_suffix _ _ _ E D).
Qed.

Lemma endpoint_text_last (x : NetworkAddress.t) :
  exists pre c, endpoint_text x = pre ++ [c] /\ isdigit c = true.
Proof.
  unfold endpoint_text. destruct (fmt_d_last (NetworkAddress.port x)) as (pre & c & E & D).
  rewrite E.
  exists ((if NetworkAddress.isV6 x
           then "["%char :: IPAddress.toString (NetworkAddress.ip x) ++ ["]"%char]
           else IPAddress.toString (NetworkAddress.ip x)) ++ ":"%char :: pre), c.
  split; [|assumption]. rewrite <- app_assoc. reflexivity.
Qed.

Lemma IPAddress_parse_ntop6 (bytes : list Z) :
  length bytes = 16%nat -> Forall is_byte bytes ->
  IPAddress.parse (inet_ntop6 bytes) = Returns (Some (IPAddress.of_store bytes)).
Proof.
  intros L F. unfold IPAddress.parse, Asio.from_string, Asio.make_address_v6.
  pose proof (inet_ntop6_plain bytes) as P.
  rewrite c_str_no_nul by (eapply Forall_impl; [|exact P]; intros c H; apply H).
  rewrite before_percent_plain by (eapply Forall_impl; [|exact P]; intros c H; apply H).
  rewrite inet_pton6_ntop6 by assumption. reflexivity.
Qed.

(** An address with a well-formed IP, a 16-bit port and the flags [parse]
    sets is what parsing its text gives. *)
Lemma parse_toString_make (address : IPAddress.t) (p : Z) (isTLS : bool) :
  well_formed address -> 0 <= p < 2 ^ 16 ->
  NetworkAddress.parse (NetworkAddress.toString (NetworkAddress.make address p true isTLS))
  = Returns (NetworkAddress.make address p true isTLS).
Proof.
  intros W P. set (x := NetworkAddress.make address p true isTLS).
  rewrite toString_text, (parse_with_tls_text _ _ (endpoint_text_last x)).
  unfold x at 2. rewrite isTLS_make.
  unfold endpoint_text, x, NetworkAddress.isV6, IPAddress.isV6, IPAddress.toString,
    IPAddress.isV6.
  cbn [NetworkAddress.ip NetworkAddress.port NetworkAddress.make].
  change (2 ^ 16) with 65536 in P.
  unfold well_formed in W. destruct (IPAddress.isV6addr address) eqn:V.
  - destruct W as [L F]. unfold Asio.v6_to_string.
    repeat (rewrite <- app_assoc || rewrite <- app_comm_cons). cbn [app].
    rewrite parse_endpoint_bracketed
      by (eapply Forall_impl; [|apply inet_ntop6_plain]; intros c H; apply H).
    rewrite stoi_fmt_d by (unfold INT_MIN, INT_MAX; lia). cbn [bind].
    rewrite IPAddress_parse_ntop6 by assumption. cbn [bind].
    unfold to_uint16. rewrite Z.mod_small by (change (2 ^ 16) with 65536; lia).
    destruct address as [st v6]. cbn in V |- *. subst v6. reflexivity.
  - destruct W as (v & Hv & ->). rewrite toV4_of_uint32 by assumption.
    repeat (rewrite <- app_assoc || rewrite <- app_comm_cons).
    match goal with
    | |- NetworkAddress.parse_endpoint ?t _ = _ =>
        change t with (dotted_quad (Z.land (Z.shiftr v 24) 255) (Z.land (Z.shiftr v 16) 255)
                                   (Z.land (Z.shiftr v 8) 255) (Z.land v 255) p)
    end.
    pose proof (byte_land_range (Z.shiftr v 24)).
    pose proof (byte_land_range (Z.shiftr v 16)).
    pose proof (byte_land_range (Z.shiftr v 8)).
    pose proof (byte_land_range v).
    rewrite parse_endpoint_dotted_quad
      by (apply in_int_range_iff; unfold INT_MIN, INT_MAX; lia).
    rewrite octets_rebuild by assumption.
    unfold to_uint16. rewrite Z.mod_small by (change (2 ^ 16) with 65536; lia).
    reflexivity.
Qed.

(** C1. For every address [x] that [NetworkAddress::parse] returns,
    parsing [x.toString()] gives [x] back.  [toString] writes the IP text,
    in brackets for IPv6 and bare for IPv4, then a colon and the port in
    decimal, then [":tls"] exactly when the TLS flag is set. *)
Theorem parse_toString_round_trip (s : text) (x : NetworkAddress.t) :
  NetworkAddress.parse s = Returns x ->
  NetworkAddress.parse (NetworkAddress.toString x) = Returns x
  /\ NetworkAddress.toString x
     = (if NetworkAddress.isV6 x
        then "["%char :: IPAddress.toString (NetworkAddress.ip x) ++ ["]"%char]
        else IPAddress.toString (NetworkAddress.ip x))
         ++ ":"%char :: fmt_d (NetworkAddress.port x)
         ++ (if NetworkAddress.isTLS x then txt ":tls" else []).
Proof.
  intros H. split.
  - destruct (parse_shape s x H) as (f & address & p & _ & _ & E & ->).
    apply parse_toString_make.
    + apply (parse_endpoint_well_formed f false _ (E false)).
    + apply Z.mod_pos_bound. reflexivity.
  - rewrite toString_text. unfold endpoint_text, tls_text.
    rewrite <- app_assoc, <- app_comm_cons. reflexivity.
Qed.

Lemma parse_toString_round_trip_witness :
  NetworkAddress.parse (NetworkAddress.toString sample_v6_tls) = Returns sample_v6_tls
  /\ NetworkAddress.toString sample_v6_tls
     = (if NetworkAddress.isV6 sample_v6_tls
        then "["%char :: IPAddress.toString (NetworkAddress.ip sample_v6_tls) ++ ["]"%char]
        else IPAddress.toString (NetworkAddress.ip sample_v6_tls))
         ++ ":"%char :: fmt_d (NetworkAddress.port sample_v6_tls)
         ++ (if NetworkAddress.isTLS sample_v6_tls then txt ":tls" else []).
Proof.
  apply (parse_toString_round_trip
           (txt "[2001:0db8:85a3:0000:0000:8a2e:0370:7334]:4800:tls")).
  vm_compute. reflexivity.
Defined.

(** The assertions of the unit test /flow/network/ipaddress. *)
Example test_case_ipaddress :
  (x <- NetworkAddress.parse (txt "[::1]:4800") ;; Returns (NetworkAddress.toString x))
  = Returns (txt "[::1]:4800")
  /\ (x <- NetworkAddress.parse (txt "[2001:0db8:85a3:0000:0000:8a2e:0370:7334]:4800") ;;
      Returns (NetworkAddress.isV6 x, NetworkAddress.isTLS x, NetworkAddress.toString x))
     = Returns (true, false, txt "[2001:db8:85a3::8a2e:370:7334]:4800")
  /\ (x <- NetworkAddress.parse (txt "[2001:0db8:85a3:0000:0000:8a2e:0370:7334]:4800:tls") ;;
      Returns (NetworkAddress.isV6 x, NetworkAddress.isTLS x, NetworkAddress.toString x))
     = Returns (true, true, txt "[2001:db8:85a3::8a2e:370:7334]:4800:tls").
Proof. repeat split; vm_compute; reflexivity. Qed.

(** ** parseList *)

Lemma find_from_none (c : ascii) (t : text) (i : nat) :
  find_from c t i = None -> split_on c t = [t].
Proof.
  revert i; induction t as [|x t IH]; intros i; cbn [find_from split_on]; [reflexivity|].
  destruct (Ascii.eqb x c); [discriminate|]. intros H. rewrite (IH _ H). reflexivity.
Qed.

Lemma find_from_some (c : ascii) (t : text) (i k : nat) :
  find_from c t i = Some k ->
  exists a post, t = a ++ c :: post /\ k = (i + length a)%nat
                 /\ split_on c t = a :: split_on c post.
Proof.
  revert i; induction t as [|x t IH]; intros i; cbn [find_from split_on]; [discriminate|].
  destruct (Ascii.eqb x c) eqn:E.
  - apply Ascii.eqb_eq in E. subst x. intros H; injection H as <-.
    exists [], t. repeat split. cbn. lia.
  - intros H. destruct (IH _ H) as (a & post & -> & -> & S).
    exists (x :: a), post. rewrite S. repeat split. cbn [length]. lia.
Qed.

Lemma parseList_loop_pieces (fuel : nat) (pre t : text) (coord : list NetworkAddress.t) :
  (length t < fuel)%nat ->
  NetworkAddress.parseList_loop fuel (pre ++ t) (length pre) coord
  = Some (xs <- parse_each (split_on "," t) ;; Returns (coord ++ xs)).
Proof.
  revert pre t coord; induction fuel as [|fuel IH]; intros pre t coord L; [lia|].
  cbn [NetworkAddress.parseList_loop].
  rewrite (proj2 (Nat.leb_le (length pre) (length (pre ++ t))))
    by (rewrite length_app; lia).
  unfold find_first_of, substr.
  rewrite (proj2 (Nat.ltb_ge (length (pre ++ t)) (length pre)))
    by (rewrite length_app; lia).
  rewrite skipn_app, skipn_all, Nat.sub_diag. cbn [skipn app bind].
  destruct (find_from "," t (length pre)) as [k|] eqn:F.
  - destruct (find_from_some _ _ _ _ F) as (a & post & -> & -> & S).
    rewrite S. cbn [parse_each].
    replace (length pre + length a - length pre)%nat with (length a + 0)%nat by lia.
    rewrite firstn_app_2. cbn [firstn]. rewrite app_nil_r.
    destruct (NetworkAddress.parse a) as [x| |]; cbn [bind]; try reflexivity.
    replace (pre ++ a ++ ","%char :: post) with ((pre ++ a ++ [","%char]) ++ post)
      by (rewrite <- !app_assoc; reflexivity).
    replace (length pre + length a + 1)%nat with (length (pre ++ a ++ [","%char]))
      by (rewrite !length_app; cbn [length]; lia).
    rewrite IH by (rewrite length_app in L; cbn [length] in L; lia).
    destruct (parse_each (split_on "," post)) as [xs| |]; cbn [bind]; try reflexivity.
    rewrite <- app_assoc. reflexivity.
  - rewrite (find_from_none _ _ _ F). cbn [parse_each].
    rewrite length_app.
    replace (length pre + length t - length pre)%nat with (length t) by lia.
    rewrite firstn_all.
    destruct (NetworkAddress.parse t) as [x| |]; cbn [bind]; try reflexivity.
    destruct fuel as [|fuel']; cbn [NetworkAddress.parseList_loop];
      rewrite ?length_app.
    + rewrite (proj2 (Nat.leb_gt (length pre + length t + 1) (length pre + length t)))
        by lia. reflexivity.
    + rewrite (proj2 (Nat.leb_gt (length pre + length t + 1) (length pre + length t)))
        by lia. reflexivity.
Qed.

(** [parseList] returns, and what it returns is each piece between the
    commas parsed on its own: all the addresses in input order, or the
    outcome of the first piece that fails, with nothing kept. *)
Lemma parseList_pieces (addrs : text) :
  NetworkAddress.parseList addrs = Some (parse_each (split_on "," addrs)).
Proof.
  unfold NetworkAddress.parseList.
  change (NetworkAddress.parseList_loop (length addrs + 1) addrs 0 [])
    with (NetworkAddress.parseList_loop (length addrs + 1) ([] ++ addrs) (length (@nil ascii)) []).
  rewrite parseList_loop_pieces by lia.
  destruct (parse_each _); reflexivity.
Qed.

(** C8, where the code departs from it.  [parseList] does parse the
    pieces between commas in order and fails as a whole on an empty piece,
    but a piece in brackets with a bad port is not turned into the
    malformed-string error: the [std::stoi] exception of [parse] escapes,
    and digits followed by other characters are accepted. *)
Theorem parseList_bracketed_piece_not_strict :
  NetworkAddress.parseList (txt "1.2.3.4:80,[::1]:x") = Some (Throws std_invalid_argument)
  /\ (exists a b, NetworkAddress.parseList (txt "1.2.3.4:80,[::1]:81x") = Some (Returns [a; b]))
  /\ NetworkAddress.parseList (txt "1.2.3.4:80,,5.6.7.8:9")
     = Some (Throws connection_string_invalid)
  /\ NetworkAddress.parseList (txt "1.2.3.4:80,")
     = Some (Throws connection_string_invalid)
  /\ (forall addrs, NetworkAddress.parseList addrs
                    = Some (parse_each (split_on "," addrs))).
Proof.
  split; [vm_compute; reflexivity|].
  split; [eexists _, _; vm_compute; reflexivity|].
  split; [vm_compute; reflexivity|].
  split; [vm_compute; reflexivity|].
  apply parseList_pieces.
Qed.

(** ** Validity *)

(** The zero address of either family is not valid, any other is. *)
Example isValid_examples :
  IPAddress.isValid (IPAddress.of_uint32 0) = false
  /\ IPAddress.isValid (IPAddress.of_uint32 1) = true
  /\ IPAddress.isValid (IPAddress.of_store (repeat 0 16)) = false
  /\ IPAddress.isValid IPAddress.default = false.
Proof. repeat split; reflexivity. Qed.

Example toIPVectorString_example :
  toIPVectorString_uint32 [2130706433; 167772161] = txt "127.0.0.1 10.0.0.1"
  /\ toIPVectorString [IPAddress.of_uint32 2130706433; IPAddress.of_store (repeat 0 16)]
     = txt "127.0.0.1 ::".
Proof. split; vm_compute; reflexivity. Qed.

(** * Further properties *)

(** ** The IPv4 store *)

Lemma of_uint32_store_bytes (v : Z) :
  IPAddress.store (IPAddress.of_uint32 v)
  = [Z.land v 255; Z.land (Z.shiftr v 8) 255; Z.land (Z.shiftr v 16) 255;
     Z.land (Z.shiftr v 24) 255] ++ repeat 0 12.
Proof. reflexivity. Qed.

Lemma well_formed_layout (a : IPAddress.t) :
  well_formed a ->
  length (IPAddress.store a) = 16%nat
  /\ Forall is_byte (IPAddress.store a)
  /\ (IPAddress.isV6 a = false ->
      skipn 4 (IPAddress.store a) = repeat 0 12
      /\ 0 <= IPAddress.toV4 a < 2 ^ 32
      /\ a = IPAddress.of_uint32 (IPAddress.toV4 a)).
Proof.
  unfold well_formed, IPAddress.isV6. destruct (IPAddress.isV6addr a) eqn:V.
  - intros [L F]. repeat split; try assumption; discriminate.
  - intros (v & Hv & ->). rewrite of_uint32_store_bytes. split; [reflexivity|]. split.
    + apply Forall_app. split.
      * repeat constructor; unfold is_byte; rewrite byte_land;
          apply Z.mod_pos_bound; lia.
      * apply Forall_forall. intros x Hx. apply repeat_spec in Hx. subst x.
        unfold is_byte. lia.
    + intros _. rewrite toV4_of_uint32 by assumption. repeat split; try lia.
Qed.

(** X1. The constructor from a 32-bit value keeps the IPAddress layout:
    sixteen stored bytes, each in 0..255, bytes 4 to 15 zero, family
    IPv4; and [toV4] reads the value back. *)
Theorem IPAddress_of_uint32_layout (v : Z) :
  0 <= v < 2 ^ 32 ->
  IPAddress.isV6 (IPAddress.of_uint32 v) = false
  /\ length (IPAddress.store (IPAddress.of_uint32 v)) = 16%nat
  /\ Forall is_byte (IPAddress.store (IPAddress.of_uint32 v))
  /\ skipn 4 (IPAddress.store (IPAddress.of_uint32 v)) = repeat 0 12
  /\ IPAddress.toV4 (IPAddress.of_uint32 v) = v.
Proof.
  intros H.
  assert (W : well_formed (IPAddress.of_uint32 v)) by (exists v; split; trivial).
  destruct (well_formed_layout _ W) as (L & F & K).
  destruct (K eq_refl) as (S & _ & _).
  repeat split; try assumption; try reflexivity. apply toV4_of_uint32, H.
Qed.

Lemma IPAddress_of_uint32_layout_witness :
  IPAddress.isV6 (IPAddress.of_uint32 3232235777) = false
  /\ length (IPAddress.store (IPAddress.of_uint32 3232235777)) = 16%nat
  /\ Forall is_byte (IPAddress.store (IPAddress.of_uint32 3232235777))
  /\ skipn 4 (IPAddress.store (IPAddress.of_uint32 3232235777)) = repeat 0 12
  /\ IPAddress.toV4 (IPAddress.of_uint32 3232235777) = 3232235777.
Proof. apply (IPAddress_of_uint32_layout 3232235777). vm_compute. split; [discriminate|reflexivity]. Defined.

(** ** isValid *)

Lemma existsb_positive_bytes (bytes : list Z) :
  Forall is_byte bytes ->
  (existsb (fun part => part >? 0) bytes = false <-> bytes = repeat 0 (length bytes)).
Proof.
  induction 1 as [|b bytes Hb _ IH]; cbn [existsb length repeat]; [tauto|].
  rewrite orb_false_iff, IH, Z.gtb_ltb, Z.ltb_ge. unfold is_byte in Hb. split.
  - intros [B E]. assert (b = 0) by lia. subst b. rewrite <- E. reflexivity.
  - intros E. injection E as -> E. split; [lia|]. rewrite <- E. reflexivity.
Qed.

(** X2. [isValid] rejects exactly the zero address of each family: an
    IPv4 address is valid iff its 32-bit value is not 0, an IPv6 address
    iff one of its stored bytes is not 0. *)
Theorem isValid_iff_nonzero :
  (forall v, 0 <= v < 2 ^ 32 ->
             (IPAddress.isValid (IPAddress.of_uint32 v) = true <-> v <> 0))
  /\ (forall bytes, Forall is_byte bytes ->
                    (IPAddress.isValid (IPAddress.of_store bytes) = false
                     <-> bytes = repeat 0 (length bytes))).
Proof.
  split.
  - intros v H. unfold IPAddress.isValid.
    change (IPAddress.isV6 (IPAddress.of_uint32 v)) with false. cbn [negb].
    rewrite toV4_of_uint32 by assumption. rewrite negb_true_iff, Z.eqb_neq. tauto.
  - intros bytes F. unfold IPAddress.isValid.
    change (IPAddress.isV6 (IPAddress.of_store bytes)) with true. cbn [negb].
    apply existsb_positive_bytes, F.
Qed.

Lemma isValid_iff_nonzero_witness :
  IPAddress.isValid (IPAddress.of_uint32 1) = true <-> 1 <> 0.
Proof. apply (proj1 isValid_iff_nonzero 1). vm_compute. split; [discriminate|reflexivity]. Defined.

(** ** IPAddress: text and back *)

Lemma fmt_d_nonneg (o : Z) : 0 <= o -> fmt_d o = fmt_u o.
Proof. intros H. unfold fmt_d, fmt_u. rewrite (proj2 (Z.ltb_ge o 0)) by lia. reflexivity. Qed.

Lemma dotted_ip_ntop4 (a b c d : Z) :
  0 <= a -> 0 <= b -> 0 <= c -> 0 <= d -> dotted_ip a b c d = inet_ntop4 [a; b; c; d].
Proof.
  intros. unfold dotted_ip, inet_ntop4. cbn [nth]. rewrite !fmt_d_nonneg by assumption.
  reflexivity.
Qed.

Lemma isdigit_not_colon (c : ascii) : isdigit c = true -> Ascii.eqb c ":" = false.
Proof.
  intros D. destruct (Ascii.eqb c ":") eqn:E; [|reflexivity].
  apply Ascii.eqb_eq in E. subst c. discriminate D.
Qed.

(** A dotted quad alone is no IPv6 text. *)
Lemma inet_pton6_dotted (a b c d : Z) :
  0 <= a <= 255 -> 0 <= b <= 255 -> 0 <= c <= 255 -> 0 <= d <= 255 ->
  inet_pton6 (inet_ntop4 [a; b; c; d]) = None.
Proof.
  intros Ha Hb Hc Hd.
  pose proof (inet_pton4_ntop4 a b c d Ha Hb Hc Hd) as P.
  assert (S : inet_pton6 (inet_ntop4 [a; b; c; d])
              = inet_pton6_loop (inet_ntop4 [a; b; c; d]) (inet_ntop4 [a; b; c; d])
                                [] None 0 0).
  { unfold inet_ntop4 at 1 2 3. cbn [nth]. unfold fmt_u at 1 5 9.
    destruct (digits_decimal_head a) as (x & r & E & D). rewrite E.
    cbn [app inet_pton6]. rewrite (isdigit_not_colon x D). reflexivity. }
  rewrite S. unfold inet_ntop4 at 1. cbn [nth].
  rewrite (pton6_dotted_tail a _ _ [a; b; c; d] [] None Ha P) by (cbn; lia).
  reflexivity.
Qed.

Lemma lor_octets (a b c d : Z) :
  0 <= a <= 255 -> 0 <= b <= 255 -> 0 <= c <= 255 -> 0 <= d <= 255 ->
  Z.lor (Z.lor (Z.lor (Z.shiftl a 24) (Z.shiftl b 16)) (Z.shiftl c 8)) d
  = a * 16777216 + b * 65536 + c * 256 + d.
Proof.
  intros Ha Hb Hc Hd.
  replace (Z.shiftl a 24) with (Z.shiftl (Z.shiftl a 8) 16)
    by (rewrite Z.shiftl_shiftl by lia; reflexivity).
  rewrite <- Z.shiftl_lor.
  rewrite (lor_shiftl_low a b 8) by (change (2 ^ 8) with 256; lia).
  replace (Z.shiftl (a * 2 ^ 8 + b) 16) with (Z.shiftl (Z.shiftl (a * 2 ^ 8 + b) 8) 8)
    by (rewrite Z.shiftl_shiftl by lia; reflexivity).
  rewrite <- Z.shiftl_lor.
  rewrite (lor_shiftl_low (a * 2 ^ 8 + b) c 8) by (change (2 ^ 8) with 256; lia).
  rewrite (lor_shiftl_low _ d 8) by (change (2 ^ 8) with 256; lia).
  change (2 ^ 8) with 256. lia.
Qed.

Lemma from_string_dotted (a b c d : Z) :
  0 <= a <= 255 -> 0 <= b <= 255 -> 0 <= c <= 255 -> 0 <= d <= 255 ->
  Asio.from_string (inet_ntop4 [a; b; c; d])
  = Returns (Asio.address_v4 (a * 16777216 + b * 65536 + c * 256 + d)).
Proof.
  intros Ha Hb Hc Hd. unfold Asio.from_string, Asio.make_address_v6, Asio.make_address_v4.
  pose proof (inet_ntop4_plain [a; b; c; d]) as P.
  rewrite c_str_no_nul by (eapply Forall_impl; [|exact P]; intros x H; apply H).
  rewrite before_percent_plain by (eapply Forall_impl; [|exact P]; intros x H; apply H).
  rewrite inet_pton6_dotted, inet_pton4_ntop4 by assumption.
  rewrite lor_octets by assumption. reflexivity.
Qed.

Lemma octets_range (v : Z) : Forall (fun o => 0 <= o <= 255) (octets v).
Proof. unfold octets. repeat constructor; apply byte_land_range. Qed.

Lemma octets_value (v : Z) :
  0 <= v < 2 ^ 32 ->
  Z.land (Z.shiftr v 24) 255 * 16777216 + Z.land (Z.shiftr v 16) 255 * 65536
  + Z.land (Z.shiftr v 8) 255 * 256 + Z.land v 255 = v.
Proof.
  intros H. destruct (uint32_bytes v H) as (b0 & b1 & b2 & b3 & B & E & E0 & E1 & E2 & E3).
  rewrite E0, E1, E2, E3. lia.
Qed.

Lemma IPAddress_toString_v4 (v : Z) :
  0 <= v < 2 ^ 32 ->
  IPAddress.toString (IPAddress.of_uint32 v)
  = inet_ntop4 (octets v).
Proof.
  intros H. unfold IPAddress.toString.
  change (IPAddress.isV6 (IPAddress.of_uint32 v)) with false. cbv iota.
  rewrite toV4_of_uint32 by assumption.
  pose proof (byte_land_range (Z.shiftr v 24)). pose proof (byte_land_range (Z.shiftr v 16)).
  pose proof (byte_land_range (Z.shiftr v 8)). pose proof (byte_land_range v).
  unfold octets. rewrite <- dotted_ip_ntop4 by lia. reflexivity.
Qed.

(** X3. For every well-formed address (sixteen stored bytes; for IPv4
    the store the 32-bit constructor writes) [IPAddress::parse] reads
    [toString()] back as the same address, of the same family. *)
Theorem IPAddress_parse_toString (a : IPAddress.t) :
  well_formed a -> IPAddress.parse (IPAddress.toString a) = Returns (Some a).
Proof.
  intros W. unfold well_formed in W. destruct (IPAddress.isV6addr a) eqn:V.
  - destruct W as [L F]. unfold IPAddress.toString, IPAddress.isV6. rewrite V.
    unfold Asio.v6_to_string. rewrite IPAddress_parse_ntop6 by assumption.
    destruct a as [st v6]. cbn in V |- *. subst v6. reflexivity.
  - destruct W as (v & Hv & ->). rewrite IPAddress_toString_v4 by assumption.
    unfold IPAddress.parse, octets.
    pose proof (byte_land_range (Z.shiftr v 24)). pose proof (byte_land_range (Z.shiftr v 16)).
    pose proof (byte_land_range (Z.shiftr v 8)). pose proof (byte_land_range v).
    rewrite from_string_dotted by assumption. rewrite octets_value by assumption.
    reflexivity.
Qed.

Lemma IPAddress_parse_toString_witness :
  IPAddress.parse (IPAddress.toString (IPAddress.of_uint32 2130706433))
  = Returns (Some (IPAddress.of_uint32 2130706433)).
Proof.
  apply (IPAddress_parse_toString (IPAddress.of_uint32 2130706433)).
  exists 2130706433. split; [vm_compute; split; [discriminate|reflexivity]|reflexivity].
Defined.

(** X4. Whatever [IPAddress::parse] returns is well formed: sixteen stored
    bytes, each in 0..255, and for an IPv4 result bytes 4 to 15 are zero
    and the store is the one the 32-bit constructor writes. *)
Theorem IPAddress_parse_layout (str : text) (a : IPAddress.t) :
  IPAddress.parse str = Returns (Some a) ->
  length (IPAddress.store a) = 16%nat
  /\ Forall is_byte (IPAddress.store a)
  /\ (IPAddress.isV6 a = false ->
      skipn 4 (IPAddress.store a) = repeat 0 12
      /\ 0 <= IPAddress.toV4 a < 2 ^ 32
      /\ a = IPAddress.of_uint32 (IPAddress.toV4 a)).
Proof. intros H. apply well_formed_layout, (IPAddress_parse_well_formed str), H. Qed.

Lemma IPAddress_parse_layout_witness :
  length (IPAddress.store (IPAddress.of_uint32 16909060)) = 16%nat
  /\ Forall is_byte (IPAddress.store (IPAddress.of_uint32 16909060))
  /\ (IPAddress.isV6 (IPAddress.of_uint32 16909060) = false ->
      skipn 4 (IPAddress.store (IPAddress.of_uint32 16909060)) = repeat 0 12
      /\ 0 <= IPAddress.toV4 (IPAddress.of_uint32 16909060) < 2 ^ 32
      /\ IPAddress.of_uint32 16909060
         = IPAddress.of_uint32 (IPAddress.toV4 (IPAddress.of_uint32 16909060))).
Proof. apply (IPAddress_parse_layout (txt "1.2.3.4")). vm_compute. reflexivity. Defined.

(** ** What parse returns and what it raises *)

Lemma IPAddress_parse_returns (str : text) : exists o, IPAddress.parse str = Returns o.
Proof.
  unfold IPAddress.parse, Asio.from_string.
  destruct (Asio.make_address_v6 _); [eexists; reflexivity|].
  destruct (Asio.make_address_v4 _); eexists; reflexivity.
Qed.

Lemma parse_stripped (s : text) :
  NetworkAddress.parse s
  = NetworkAddress.parse_endpoint (without_suffix s) (NetworkAddress.has_tls_suffix s).
Proof.
  unfold NetworkAddress.parse, without_suffix, substr.
  destruct (NetworkAddress.has_tls_suffix s); reflexivity.
Qed.

(** X5. An address [NetworkAddress::parse] returns carries exactly the TLS
    bit when the text had the [":tls"] suffix and no other flag (it is
    public), and its IP is well formed: sixteen bytes in 0..255, with
    bytes 4 to 15 zero for IPv4. *)
Theorem parse_flags_and_layout (s : text) (x : NetworkAddress.t) :
  NetworkAddress.parse s = Returns x ->
  NetworkAddress.flags x = (if NetworkAddress.has_tls_suffix s
                            then NetworkAddress.FLAG_TLS else 0)
  /\ NetworkAddress.isTLS x = NetworkAddress.has_tls_suffix s
  /\ length (IPAddress.store (NetworkAddress.ip x)) = 16%nat
  /\ Forall is_byte (IPAddress.store (NetworkAddress.ip x))
  /\ (NetworkAddress.isV6 x = false ->
      skipn 4 (IPAddress.store (NetworkAddress.ip x)) = repeat 0 12).
Proof.
  intros H. pose proof H as H'. rewrite parse_stripped in H'.
  apply parse_endpoint_well_formed, well_formed_layout in H'.
  destruct H' as (L & F & K).
  destruct (parse_shape s x H) as (f & address & p & _ & _ & _ & E).
  split; [rewrite E; destruct (NetworkAddress.has_tls_suffix s); reflexivity|].
  split; [rewrite E; apply isTLS_make|].
  repeat split; try assumption. intros V. apply K, V.
Qed.

Lemma parse_flags_and_layout_witness :
  NetworkAddress.flags sample_v6_tls
  = (if NetworkAddress.has_tls_suffix (txt "[2001:db8:85a3::8a2e:370:7334]:4800:tls")
     then NetworkAddress.FLAG_TLS else 0)
  /\ NetworkAddress.isTLS sample_v6_tls
     = NetworkAddress.has_tls_suffix (txt "[2001:db8:85a3::8a2e:370:7334]:4800:tls")
  /\ length (IPAddress.store (NetworkAddress.ip sample_v6_tls)) = 16%nat
  /\ Forall is_byte (IPAddress.store (NetworkAddress.ip sample_v6_tls))
  /\ (NetworkAddress.isV6 sample_v6_tls = false ->
      skipn 4 (IPAddress.store (NetworkAddress.ip sample_v6_tls)) = repeat 0 12).
Proof.
  apply (parse_flags_and_layout (txt "[2001:db8:85a3::8a2e:370:7334]:4800:tls")).
  vm_compute. reflexivity.
Defined.

Lemma stoi_errors (p : text) (e : error) :
  stoi p = Throws e -> e = std_invalid_argument \/ e = std_out_of_range.
Proof.
  unfold stoi. destruct (scan_integer _) as [[v r]|].
  - destruct (in_int_range v); [discriminate|]. intros E; injection E as <-. auto.
  - intros E; injection E as <-. auto.
Qed.

(** X6. The errors [NetworkAddress::parse] can raise: without a leading
    bracket (after the suffix is taken off) only
    [connection_string_invalid]; with one, that error or one of the two
    exceptions of [std::stoi] and [substr].  No error of Boost.Asio gets
    out. *)
Theorem parse_errors (s : text) (e : error) :
  NetworkAddress.parse s = Throws e ->
  e = connection_string_invalid
  \/ (Ascii.eqb (at_ (without_suffix s) 0) "[" = true
      /\ (e = std_invalid_argument \/ e = std_out_of_range)).
Proof.
  rewrite parse_stripped. generalize (without_suffix s), (NetworkAddress.has_tls_suffix s).
  intros f tls. destruct (Ascii.eqb (at_ f 0) "[") eqn:B.
  - unfold NetworkAddress.parse_endpoint, substr. rewrite B.
    destruct (find_first_of f "]" 0) as [addrEnd|];
      [|intros E; injection E as <-; auto].
    destruct (negb _); [intros E; injection E as <-; auto|].
    destruct (length f <? addrEnd + 2)%nat; cbn [bind];
      [intros E; injection E as <-; auto|].
    destruct (stoi _) as [port|e'|] eqn:S; cbn [bind]; try discriminate.
    + destruct (length f <? 1)%nat; cbn [bind]; [intros E; injection E as <-; auto|].
      destruct (IPAddress_parse_returns (firstn (addrEnd - 1) (skipn 1 f))) as [o ->].
      cbn [bind]. destruct o; [discriminate|]. intros E; injection E as <-; auto.
    + intros E; injection E as <-. right. split; [reflexivity|].
      apply (stoi_errors _ _ S).
  - intros E. left. apply (parse_endpoint_unbracketed_error f tls e B E).
Qed.

Lemma parse_errors_witness :
  std_invalid_argument = connection_string_invalid
  \/ (Ascii.eqb (at_ (without_suffix (txt "[::1]:x")) 0) "[" = true
      /\ (std_invalid_argument = std_invalid_argument
          \/ std_invalid_argument = std_out_of_range)).
Proof. apply (parse_errors (txt "[::1]:x")). vm_compute. reflexivity. Defined.

(** ** The bracketed branch *)

Lemma find_from_absent (c : ascii) (t : text) (i : nat) :
  Forall (fun x => x <> c) t -> find_from c t i = None.
Proof.
  intros F. revert i; induction F as [|x t Hx _ IH]; intros i; cbn [find_from];
    [reflexivity|].
  rewrite (proj2 (Ascii.eqb_neq x c) Hx). apply IH.
Qed.

(** X7. Faults of the bracketed form that do raise
    [connection_string_invalid]: no closing bracket; a closing bracket
    not followed by a colon; and, when the port text converts, an address
    text that [IPAddress::parse] does not accept. *)
Theorem bracketed_syntax_errors (t : text) (isTLS : bool) :
  Forall (fun x => x <> "]"%char) t ->
  NetworkAddress.parse_endpoint ("["%char :: t) isTLS = Throws connection_string_invalid
  /\ (forall r, at_ r 0 <> ":"%char ->
                NetworkAddress.parse_endpoint ("["%char :: t ++ "]"%char :: r) isTLS
                = Throws connection_string_invalid)
  /\ (forall p port, stoi p = Returns port -> IPAddress.parse t = Returns None ->
                     NetworkAddress.parse_endpoint
                       ("["%char :: t ++ "]"%char :: ":"%char :: p) isTLS
                     = Throws connection_string_invalid).
Proof.
  intros F. split; [|split].
  - unfold NetworkAddress.parse_endpoint, find_first_of.
    change (at_ ("["%char :: t) 0) with "["%char.
    cbn [skipn find_from Ascii.eqb Bool.eqb]. rewrite find_from_absent by assumption.
    reflexivity.
  - intros r R. unfold NetworkAddress.parse_endpoint, find_first_of.
    change (at_ ("["%char :: t ++ "]"%char :: r) 0) with "["%char.
    cbn [skipn find_from Ascii.eqb Bool.eqb]. rewrite find_from_skip by assumption.
    assert (A : at_ ("["%char :: t ++ "]"%char :: r) (1 + length t + 1) = at_ r 0).
    { unfold at_. replace (1 + length t + 1)%nat with (S (length t + 1)) by lia.
      cbn [nth]. rewrite app_nth2 by lia.
      replace (length t + 1 - length t)%nat with 1%nat by lia. reflexivity. }
    rewrite A, (proj2 (Ascii.eqb_neq _ _) R). reflexivity.
  - intros p port S P. rewrite parse_endpoint_bracketed by assumption.
    rewrite S, P. reflexivity.
Qed.

Lemma bracketed_syntax_errors_witness :
  NetworkAddress.parse_endpoint ("["%char :: txt "::1") false
  = Throws connection_string_invalid
  /\ (forall r, at_ r 0 <> ":"%char ->
                NetworkAddress.parse_endpoint ("["%char :: txt "::1" ++ "]"%char :: r) false
                = Throws connection_string_invalid)
  /\ (forall p port, stoi p = Returns port -> IPAddress.parse (txt "::1") = Returns None ->
                     NetworkAddress.parse_endpoint
                       ("["%char :: txt "::1" ++ "]"%char :: ":"%char :: p) false
                     = Throws connection_string_invalid).
Proof.
  apply (bracketed_syntax_errors (txt "::1") false).
  repeat constructor; discriminate.
Defined.

Lemma c_str_app_no_nul (a b : text) :
  Forall (fun c => c <> NUL) a -> c_str (a ++ b) = a ++ c_str b.
Proof.
  induction 1 as [|x a Hx _ IH]; cbn [app c_str]; [reflexivity|].
  rewrite (proj2 (Ascii.eqb_neq x NUL) Hx), IH. reflexivity.
Qed.

Lemma no_leading_digit_c_str (g : text) : no_leading_digit g -> no_leading_digit (c_str g).
Proof.
  destruct g as [|c g]; cbn [c_str no_leading_digit]; [trivial|].
  destruct (Ascii.eqb c NUL); cbn [no_leading_digit]; trivial.
Qed.

Lemma stoi_ignores_rest (p : Z) (g : text) :
  INT_MIN <= p <= INT_MAX -> no_leading_digit g -> stoi (fmt_d p ++ g) = Returns p.
Proof.
  intros H G. unfold stoi. rewrite (c_str_app_no_nul _ _ (fmt_d_no_nul p)).
  rewrite scan_integer_fmt_d by (apply no_leading_digit_c_str, G).
  rewrite (proj2 (in_int_range_iff p) H). reflexivity.
Qed.

(** X8. In the bracketed form whatever follows the digits of the port is
    ignored: with any text that does not go on with a digit appended to
    the port, the result is the one for the port alone. *)
Theorem bracketed_port_rest_ignored (t g : text) (p : Z) (isTLS : bool) :
  Forall (fun x => x <> "]"%char) t ->
  INT_MIN <= p <= INT_MAX ->
  no_leading_digit g ->
  NetworkAddress.parse_endpoint
    ("["%char :: t ++ "]"%char :: ":"%char :: fmt_d p ++ g) isTLS
  = NetworkAddress.parse_endpoint ("["%char :: t ++ "]"%char :: ":"%char :: fmt_d p) isTLS.
Proof.
  intros F H G. rewrite !parse_endpoint_bracketed by assumption.
  rewrite stoi_ignores_rest, stoi_fmt_d by assumption. reflexivity.
Qed.

Lemma bracketed_port_rest_ignored_witness :
  NetworkAddress.parse_endpoint
    ("["%char :: txt "::1" ++ "]"%char :: ":"%char :: fmt_d 80 ++ txt "abc") false
  = NetworkAddress.parse_endpoint
      ("["%char :: txt "::1" ++ "]"%char :: ":"%char :: fmt_d 80) false.
Proof.
  apply (bracketed_port_rest_ignored (txt "::1") (txt "abc") 80 false).
  - repeat constructor; discriminate.
  - vm_compute. split; discriminate.
  - reflexivity.
Defined.

Lemma dotted_quad_split (a b c d p : Z) :
  dotted_quad a b c d p = dotted_ip a b c d ++ ":"%char :: fmt_d p.
Proof.
  unfold dotted_quad, dotted_ip.
  repeat (rewrite <- app_assoc || rewrite <- app_comm_cons). reflexivity.
Qed.

Lemma plain_not_bracket (t : text) :
  Forall plain_char t -> Forall (fun x => x <> "]"%char) t.
Proof. apply Forall_impl. intros x H. apply H. Qed.

(** X9. An IPv4 dotted quad in brackets is accepted: for octets in 0..255
    ["[A.B.C.D]:PORT"] parses to the same IPv4 address as
    ["A.B.C.D:PORT"], with or without the [":tls"] suffix. *)
Theorem bracketed_dotted_quad (a b c d p : Z) (isTLS : bool) :
  0 <= a <= 255 -> 0 <= b <= 255 -> 0 <= c <= 255 -> 0 <= d <= 255 ->
  INT_MIN <= p <= INT_MAX ->
  NetworkAddress.parse
    (("["%char :: dotted_ip a b c d ++ "]"%char :: ":"%char :: fmt_d p) ++ tls_text isTLS)
  = NetworkAddress.parse (dotted_quad a b c d p ++ tls_text isTLS)
  /\ NetworkAddress.parse (dotted_quad a b c d p ++ tls_text isTLS)
     = Returns (NetworkAddress.make_v4 (a * 16777216 + b * 65536 + c * 256 + d)
                                       (to_uint16 p) true isTLS).
Proof.
  intros Ha Hb Hc Hd Hp.
  assert (R : NetworkAddress.parse (dotted_quad a b c d p ++ tls_text isTLS)
              = Returns (NetworkAddress.make_v4 (a * 16777216 + b * 65536 + c * 256 + d)
                                                (to_uint16 p) true isTLS)).
  { rewrite parse_with_tls_text by apply dotted_quad_last.
    rewrite parse_endpoint_dotted_quad
      by (apply in_int_range_iff; unfold INT_MIN, INT_MAX in *; lia).
    rewrite !Z.shiftl_mul_pow2 by lia.
    change (2 ^ 24) with 16777216. change (2 ^ 16) with 65536. change (2 ^ 8) with 256.
    rewrite Z.mod_small by (change (2 ^ 32) with 4294967296; lia). reflexivity. }
  split; [|exact R]. rewrite R.
  rewrite parse_with_tls_text.
  - rewrite dotted_ip_ntop4 by lia.
    rewrite parse_endpoint_bracketed by apply plain_not_bracket, inet_ntop4_plain.
    rewrite stoi_fmt_d by assumption. cbn [bind].
    unfold IPAddress.parse. rewrite from_string_dotted by assumption. reflexivity.
  - destruct (fmt_d_last p) as (pre & x & E & D).
    exists ("["%char :: dotted_ip a b c d ++ "]"%char :: ":"%char :: pre), x.
    split; [|assumption]. rewrite E.
    repeat (rewrite <- app_assoc || rewrite <- app_comm_cons). reflexivity.
Qed.

Lemma bracketed_dotted_quad_witness :
  NetworkAddress.parse
    (("["%char :: dotted_ip 10 0 0 1 ++ "]"%char :: ":"%char :: fmt_d 4500) ++ tls_text true)
  = NetworkAddress.parse (dotted_quad 10 0 0 1 4500 ++ tls_text true)
  /\ NetworkAddress.parse (dotted_quad 10 0 0 1 4500 ++ tls_text true)
     = Returns (NetworkAddress.make_v4 (10 * 16777216 + 0 * 65536 + 0 * 256 + 1)
                                       (to_uint16 4500) true true).
Proof.
  apply (bracketed_dotted_quad 10 0 0 1 4500 true); vm_compute; split; discriminate.
Defined.

(** ** The dotted-quad branch: what the strict scan lets through *)

Lemma sscanf_run_count (fmt : list directive) (total : nat) (rest : text)
      (vals : list Z) (count0 ret : Z) (vals' : list Z) (count : Z) :
  sscanf_run fmt total rest vals count0 = Scanned ret vals' count ->
  count = count0 \/ 0 <= count <= Z.of_nat total.
Proof.
  revert rest vals count0; induction fmt as [|dir fmt IH]; intros rest vals count0;
    cbn [sscanf_run].
  - intros E; injection E as _ _ <-. auto.
  - destruct dir as [|ch|].
    + destruct (scan_integer rest) as [[v rest']|].
      * destruct (in_int_range v); [apply IH|discriminate].
      * intros E; injection E as _ _ <-. auto.
    + destruct rest as [|c' rest'].
      * intros E; injection E as _ _ <-. auto.
      * destruct (Ascii.eqb c' ch); [apply IH|].
        intros E; injection E as _ _ <-. auto.
    + intros E. apply IH in E. right. lia.
Qed.

Lemma c_str_cut (f : text) : In NUL f -> (length (c_str f) < length f)%nat.
Proof.
  induction f as [|c f IH]; cbn [In c_str length]; [tauto|].
  destruct (Ascii.eqb c NUL) eqn:E.
  - intros _. cbn [length]. lia.
  - intros [->|H]; [discriminate E|]. cbn [length]. specialize (IH H). lia.
Qed.

(** X10. Without a leading bracket a text that holds a NUL character is
    never accepted: the scan stops at the NUL, so the count of consumed
    characters cannot reach [f.size()]. *)
Theorem dotted_quad_rejects_nul (f : text) (isTLS : bool) (x : NetworkAddress.t) :
  Ascii.eqb (at_ f 0) "[" = false -> In NUL f ->
  NetworkAddress.parse_endpoint f isTLS <> Returns x.
Proof.
  intros B N. unfold NetworkAddress.parse_endpoint. rewrite B.
  destruct (sscanf (c_str f) NetworkAddress.dotted_quad_format (-1))
    as [ret vals count|] eqn:S; [|discriminate].
  apply sscanf_run_count in S. pose proof (c_str_cut f N) as L.
  assert (C : (count =? Z.of_nat (length f)) = false) by (apply Z.eqb_neq; lia).
  rewrite C, orb_true_r. discriminate.
Qed.

Lemma dotted_quad_rejects_nul_witness :
  NetworkAddress.parse_endpoint (txt "1.2.3.4:80" ++ [NUL]) false
  <> Returns (NetworkAddress.make_v4 16909060 80 true false).
Proof.
  apply (dotted_quad_rejects_nul (txt "1.2.3.4:80" ++ [NUL]) false).
  - reflexivity.
  - apply in_or_app. right. left. reflexivity.
Defined.

Lemma skip_space_app (w s : text) :
  Forall (fun c => isspace c = true) w -> skip_space (w ++ s) = skip_space s.
Proof.
  induction 1 as [|c w Hc _ IH]; cbn [app skip_space]; [reflexivity|].
  rewrite Hc. apply IH.
Qed.

Lemma scan_integer_spaces (w s : text) :
  Forall (fun c => isspace c = true) w -> scan_integer (w ++ s) = scan_integer s.
Proof. intros F. unfold scan_integer. rewrite skip_space_app by assumption. reflexivity. Qed.

Lemma sscanf_dotted_quad_spaced (w1 w2 w3 w4 w5 : text) (a b c d p : Z) :
  Forall (fun x => isspace x = true) w1 -> Forall (fun x => isspace x = true) w2 ->
  Forall (fun x => isspace x = true) w3 -> Forall (fun x => isspace x = true) w4 ->
  Forall (fun x => isspace x = true) w5 ->
  in_int_range a = true -> in_int_range b = true -> in_int_range c = true ->
  in_int_range d = true -> in_int_range p = true ->
  sscanf (dotted_quad_spaced w1 w2 w3 w4 w5 a b c d p) NetworkAddress.dotted_quad_format (-1)
  = Scanned 5 [a; b; c; d; p]
            (Z.of_nat (length (dotted_quad_spaced w1 w2 w3 w4 w5 a b c d p))).
Proof.
  intros F1 F2 F3 F4 F5 Ha Hb Hc Hd Hp. unfold sscanf.
  generalize (length (dotted_quad_spaced w1 w2 w3 w4 w5 a b c d p)). intros total.
  unfold dotted_quad_spaced, NetworkAddress.dotted_quad_format.
  rewrite <- (app_nil_r (fmt_d p)).
  cbn [sscanf_run].
  rewrite scan_integer_spaces, scan_integer_fmt_d, Ha by (assumption || reflexivity).
  cbn [Ascii.eqb Bool.eqb app].
  rewrite scan_integer_spaces, scan_integer_fmt_d, Hb by (assumption || reflexivity).
  cbn [Ascii.eqb Bool.eqb app].
  rewrite scan_integer_spaces, scan_integer_fmt_d, Hc by (assumption || reflexivity).
  cbn [Ascii.eqb Bool.eqb app].
  rewrite scan_integer_spaces, scan_integer_fmt_d, Hd by (assumption || reflexivity).
  cbn [Ascii.eqb Bool.eqb app].
  rewrite scan_integer_spaces, scan_integer_fmt_d, Hp by (assumption || exact I).
  cbn [length app]. rewrite Nat.sub_0_r. reflexivity.
Qed.

Lemma isspace_no_nul (w : text) :
  Forall (fun x => isspace x = true) w -> Forall (fun x => x <> NUL) w.
Proof. apply Forall_impl. intros x H ->. discriminate H. Qed.

Lemma dotted_quad_spaced_no_nul (w1 w2 w3 w4 w5 : text) (a b c d p : Z) :
  Forall (fun x => isspace x = true) w1 -> Forall (fun x => isspace x = true) w2 ->
  Forall (fun x => isspace x = true) w3 -> Forall (fun x => isspace x = true) w4 ->
  Forall (fun x => isspace x = true) w5 ->
  Forall (fun x => x <> NUL) (dotted_quad_spaced w1 w2 w3 w4 w5 a b c d p).
Proof.
  intros F1 F2 F3 F4 F5. unfold dotted_quad_spaced.
  repeat (apply Forall_app; split; [apply isspace_no_nul; assumption|];
          apply Forall_app; split; [apply fmt_d_no_nul|];
          constructor; [discriminate|]).
  apply Forall_app; split; [apply isspace_no_nul; assumption|apply fmt_d_no_nul].
Qed.

Lemma dotted_quad_spaced_head (w1 w2 w3 w4 w5 : text) (a b c d p : Z) :
  Forall (fun x => isspace x = true) w1 ->
  Ascii.eqb (at_ (dotted_quad_spaced w1 w2 w3 w4 w5 a b c d p) 0) "[" = false.
Proof.
  intros F1. unfold dotted_quad_spaced. destruct F1 as [|x w1 Hx _].
  - cbn [app]. destruct (fmt_d_head a) as (y & r & -> & [->|D]); [reflexivity|].
    cbn [at_ nth app]. destruct (Ascii.eqb y "[") eqn:E; [|reflexivity].
    apply Ascii.eqb_eq in E. subst y. discriminate D.
  - cbn [at_ nth app]. destruct (Ascii.eqb x "[") eqn:E; [|reflexivity].
    apply Ascii.eqb_eq in E. subst x. discriminate Hx.
Qed.

Lemma dotted_quad_spaced_last (w1 w2 w3 w4 w5 : text) (a b c d p : Z) :
  exists pre x, dotted_quad_spaced w1 w2 w3 w4 w5 a b c d p = pre ++ [x]
                /\ isdigit x = true.
Proof.
  destruct (fmt_d_last p) as (pre & x & E & D).
  exists (w1 ++ fmt_d a ++ "."%char :: w2 ++ fmt_d b ++ "."%char :: w3 ++ fmt_d c
             ++ "."%char :: w4 ++ fmt_d d ++ ":"%char :: w5 ++ pre), x.
  split; [|assumption]. unfold dotted_quad_spaced. rewrite E.
  repeat (rewrite <- app_assoc || rewrite <- app_comm_cons). reflexivity.
Qed.

(** X11. The scan of the dotted form skips white space in front of every
    field: a text with blanks, tabs or line breaks before any of the four
    octets or the port parses to the same address as the text without
    them. *)
Theorem dotted_quad_skips_white_space (w1 w2 w3 w4 w5 : text) (a b c d p : Z) :
  Forall (fun x => isspace x = true) w1 -> Forall (fun x => isspace x = true) w2 ->
  Forall (fun x => isspace x = true) w3 -> Forall (fun x => isspace x = true) w4 ->
  Forall (fun x => isspace x = true) w5 ->
  INT_MIN <= a <= INT_MAX -> INT_MIN <= b <= INT_MAX -> INT_MIN <= c <= INT_MAX ->
  INT_MIN <= d <= INT_MAX -> INT_MIN <= p <= INT_MAX ->
  NetworkAddress.parse (dotted_quad_spaced w1 w2 w3 w4 w5 a b c d p)
  = NetworkAddress.parse (dotted_quad a b c d p).
Proof.
  intros F1 F2 F3 F4 F5 Ha Hb Hc Hd Hp. apply in_int_range_iff in Ha, Hb, Hc, Hd, Hp.
  rewrite parse_dotted_quad by assumption.
  destruct (dotted_quad_spaced_last w1 w2 w3 w4 w5 a b c d p) as (pre & x & E & D).
  rewrite parse_without_suffix by apply (last_digit_no_suffix _ _ _ E D).
  apply parse_endpoint_scanned; [apply dotted_quad_spaced_head; assumption|].
  rewrite c_str_no_nul by (apply dotted_quad_spaced_no_nul; assumption).
  apply sscanf_dotted_quad_spaced; assumption.
Qed.

Lemma dotted_quad_skips_white_space_witness :
  NetworkAddress.parse (dotted_quad_spaced (txt " ") [] (txt "  ") [] (txt " ") 1 2 3 4 80)
  = NetworkAddress.parse (dotted_quad 1 2 3 4 80).
Proof.
  apply (dotted_quad_skips_white_space (txt " ") [] (txt "  ") [] (txt " ") 1 2 3 4 80);
    [repeat constructor | repeat constructor | repeat constructor | repeat constructor
    | repeat constructor | vm_compute; split; discriminate
    | vm_compute; split; discriminate | vm_compute; split; discriminate
    | vm_compute; split; discriminate | vm_compute; split; discriminate].
Defined.

(** ** parseList: how many, and from what *)

Lemma split_on_length (c : ascii) (s : text) :
  length (split_on c s) = S (count_occ ascii_dec s c).
Proof.
  induction s as [|x s IH]; cbn [split_on count_occ]; [reflexivity|].
  destruct (Ascii.eqb x c) eqn:E.
  - apply Ascii.eqb_eq in E. subst x. destruct (ascii_dec c c); [|contradiction].
    cbn [length]. rewrite IH. reflexivity.
  - apply Ascii.eqb_neq in E. destruct (ascii_dec x c); [contradiction|].
    destruct (split_on c s) as [|piece pieces]; [discriminate IH|]. exact IH.
Qed.

Lemma parse_each_pieces (pieces : list text) (xs : list NetworkAddress.t) :
  parse_each pieces = Returns xs ->
  Forall2 (fun piece x => NetworkAddress.parse piece = Returns x) pieces xs.
Proof.
  revert xs; induction pieces as [|piece pieces IH]; intros xs; cbn [parse_each].
  - intros E; injection E as <-. constructor.
  - destruct (NetworkAddress.parse piece) as [x| |] eqn:P; cbn [bind]; try discriminate.
    destruct (parse_each pieces) as [xs'| |]; cbn [bind]; try discriminate.
    intros E; injection E as <-. constructor; [assumption|]. apply IH. reflexivity.
Qed.

(** X12. [parseList] always comes to an end.  When it returns a list, the
    list has one address more than the text has commas (so it is never
    empty), and its addresses are, in order, what [parse] returns for the
    pieces between the commas. *)
Theorem parseList_count (addrs : text) :
  (exists r, NetworkAddress.parseList addrs = Some r)
  /\ (forall xs, NetworkAddress.parseList addrs = Some (Returns xs) ->
                 length xs = S (count_occ ascii_dec addrs ","%char)
                 /\ xs <> []
                 /\ Forall2 (fun piece x => NetworkAddress.parse piece = Returns x)
                            (split_on "," addrs) xs).
Proof.
  rewrite parseList_pieces. split; [eexists; reflexivity|].
  intros xs E. injection E as E. apply parse_each_pieces in E.
  pose proof (Forall2_length E) as L. rewrite split_on_length in L.
  repeat split; [lia| |assumption]. intros ->. discriminate L.
Qed.

Lemma toString_chars (P : ascii -> Prop) (x : NetworkAddress.t) :
  (forall d, 0 <= d < 16 -> P (digit_char d)) ->
  Forall P (txt "-.:[]tls") ->
  Forall P (NetworkAddress.toString x).
Proof.
  intros Pd Pp.
  assert (Pm : P "-"%char /\ P "."%char /\ P ":"%char /\ P "["%char /\ P "]"%char
               /\ P "t"%char /\ P "l"%char /\ P "s"%char).
  { repeat match goal with
           | H : Forall _ (_ :: _) |- _ => inversion H; clear H; subst
           | H : Forall _ (txt _) |- _ => unfold txt in H; cbn in H
           end. repeat split; assumption. }
  destruct Pm as (Pminus & Pdot & Pcolon & Popen & Pclose & Pt & Pl & Ps).
  assert (Dg : forall base n, 0 < base <= 16 -> Forall P (digits base n)).
  { intros base n Hb. apply digits_fuel_Forall; [|lia|constructor].
    intros d Hd. apply Pd. lia. }
  assert (Fd : forall v, Forall P (fmt_d v)).
  { intros v. unfold fmt_d. destruct (v <? 0); [constructor; [assumption|]|];
      apply Dg; lia. }
  assert (N4 : forall q, Forall P (inet_ntop4 q)).
  { intros q. unfold inet_ntop4, fmt_u.
    repeat (apply Forall_app; split; [apply Dg; lia|]; constructor; [assumption|]).
    apply Dg. lia. }
  assert (Cb : forall b : bool, Forall P (if b then [":"%char] else [])).
  { intros [|]; repeat constructor; assumption. }
  assert (N6 : forall src words rest best i,
             Forall P (inet_ntop6_loop src words rest best i)).
  { intros src words rest best. induction rest as [|w rest IH]; intros i;
      cbn [inet_ntop6_loop]; [constructor|].
    destruct (in_run best i).
    - apply Forall_app. split; [apply Cb|apply IH].
    - apply Forall_app. split; [apply Cb|].
      destruct (encapsulated_v4 best words i); [apply N4|].
      apply Forall_app. split; [apply Dg; lia|apply IH]. }
  assert (Ip : Forall P (IPAddress.toString (NetworkAddress.ip x))).
  { unfold IPAddress.toString. destruct (IPAddress.isV6 _).
    - unfold Asio.v6_to_string, inet_ntop6. apply Forall_app. split; [apply N6|apply Cb].
    - repeat (apply Forall_app; split; [apply Fd|]; constructor; [assumption|]).
      apply Fd. }
  assert (Cs : forall s, Forall P s -> Forall P (c_str s)).
  { induction 1 as [|c s Hc _ IH]; cbn [c_str]; [constructor|].
    destruct (Ascii.eqb c NUL); constructor; assumption. }
  unfold NetworkAddress.toString.
  assert (Tl : Forall P (":"%char :: fmt_d (NetworkAddress.port x)
                           ++ c_str (if NetworkAddress.isTLS x then txt ":tls" else txt ""))).
  { constructor; [assumption|]. apply Forall_app. split; [apply Fd|].
    apply Cs. destruct (NetworkAddress.isTLS x); repeat constructor; assumption. }
  destruct (NetworkAddress.isV6 x).
  - constructor; [assumption|]. apply Forall_app. split; [apply Cs, Ip|].
    constructor; assumption.
  - apply Forall_app. split; [apply Cs, Ip|assumption].
Qed.

Lemma digit_char_not_comma (d : Z) : 0 <= d < 16 -> digit_char d <> ","%char.
Proof.
  intros H.
  assert (E : d = 0 \/ d = 1 \/ d = 2 \/ d = 3 \/ d = 4 \/ d = 5 \/ d = 6 \/ d = 7
              \/ d = 8 \/ d = 9 \/ d = 10 \/ d = 11 \/ d = 12 \/ d = 13 \/ d = 14
              \/ d = 15) by lia.
  repeat (destruct E as [->|E]; [discriminate|]). subst d. discriminate.
Qed.

Lemma toString_no_comma (x : NetworkAddress.t) :
  Forall (fun c => c <> ","%char) (NetworkAddress.toString x).
Proof.
  apply toString_chars; [apply digit_char_not_comma|].
  repeat constructor; discriminate.
Qed.

Lemma split_on_piece (c : ascii) (piece rest : text) :
  Forall (fun x => x <> c) piece ->
  split_on c (piece ++ c :: rest) = piece :: split_on c rest.
Proof.
  induction 1 as [|x piece Hx _ IH]; cbn [app split_on].
  - rewrite Ascii.eqb_refl. reflexivity.
  - rewrite (proj2 (Ascii.eqb_neq x c) Hx), IH. reflexivity.
Qed.

Lemma split_on_single (c : ascii) (piece : text) :
  Forall (fun x => x <> c) piece -> split_on c piece = [piece].
Proof.
  induction 1 as [|x piece Hx _ IH]; cbn [split_on]; [reflexivity|].
  rewrite (proj2 (Ascii.eqb_neq x c) Hx), IH. reflexivity.
Qed.

Lemma split_on_join (c : ascii) (pieces : list text) :
  pieces <> [] -> Forall (Forall (fun x => x <> c)) pieces ->
  split_on c (join_with c pieces) = pieces.
Proof.
  intros N F. induction F as [|piece pieces Hp F IH]; [contradiction|].
  cbn [join_with]. destruct pieces as [|piece' pieces'].
  - apply split_on_single, Hp.
  - rewrite split_on_piece by assumption. f_equal. apply IH. discriminate.
Qed.

(** An address that came out of a parse is what its text parses to. *)
Lemma parsed_reparse (s : text) (x : NetworkAddress.t) :
  NetworkAddress.parse s = Returns x ->
  NetworkAddress.parse (NetworkAddress.toString x) = Returns x.
Proof.
  intros H. destruct (parse_shape s x H) as (f & address & p & _ & _ & E & ->).
  apply parse_toString_make.
  - apply (parse_endpoint_well_formed f false _ (E false)).
  - apply Z.mod_pos_bound. reflexivity.
Qed.

(** X13. Lists round trip: for a non-empty list of addresses that came out
    of [parse], [parseList] of their [toString()] texts joined by commas
    returns the list itself. *)
Theorem parseList_join_toString (xs : list NetworkAddress.t) :
  xs <> [] ->
  Forall (fun x => exists s, NetworkAddress.parse s = Returns x) xs ->
  NetworkAddress.parseList (join_with "," (List.map NetworkAddress.toString xs))
  = Some (Returns xs).
Proof.
  intros N F. rewrite parseList_pieces, split_on_join.
  - f_equal. clear N. induction F as [|x xs (s & Hx) _ IH]; [reflexivity|].
    cbn [List.map parse_each]. rewrite (parsed_reparse s x Hx), IH. reflexivity.
  - destruct xs; [contradiction|discriminate].
  - apply Forall_forall. intros t Ht. apply in_map_iff in Ht.
    destruct Ht as (x & <- & _). apply toString_no_comma.
Qed.

Lemma parseList_join_toString_witness :
  NetworkAddress.parseList
    (join_with "," (List.map NetworkAddress.toString
                             [sample_v6_tls; NetworkAddress.make_v4 2130706433 4500 true false]))
  = Some (Returns [sample_v6_tls; NetworkAddress.make_v4 2130706433 4500 true false]).
Proof.
  apply (parseList_join_toString
           [sample_v6_tls; NetworkAddress.make_v4 2130706433 4500 true false]).
  - discriminate.
  - constructor; [|constructor; [|constructor]].
    + exists (txt "[2001:db8:85a3::8a2e:370:7334]:4800:tls"). vm_compute. reflexivity.
    + exists (txt "127.0.0.1:4500"). vm_compute. reflexivity.
Defined.

(** X14. [toString] tells parsed addresses apart: two addresses that came
    out of [parse] and print the same text are the same address (IP, port
    and flags). *)
Theorem toString_injective_on_parsed (s1 s2 : text) (x y : NetworkAddress.t) :
  NetworkAddress.parse s1 = Returns x ->
  NetworkAddress.parse s2 = Returns y ->
  NetworkAddress.toString x = NetworkAddress.toString y ->
  x = y.
Proof.
  intros Hx Hy E. apply parsed_reparse in Hx, Hy. rewrite E, Hy in Hx.
  injection Hx as <-. reflexivity.
Qed.

Lemma toString_injective_on_parsed_witness :
  NetworkAddress.make_v4 2130706433 4500 true false
  = NetworkAddress.make_v4 2130706433 4500 true false.
Proof.
  apply (toString_injective_on_parsed (txt "127.0.0.1:4500") (txt " 127.0.0.1:+4500"));
    vm_compute; reflexivity.
Defined.

(** ** toIPVectorString *)

Lemma toIPVectorString_addr_loop_join (ips : list IPAddress.t) :
  toIPVectorString_addr_loop ips (txt " ")
  = List.concat (List.map (fun ip => " "%char :: IPAddress.toString ip) ips).
Proof.
  induction ips as [|ip ips IH]; cbn [toIPVectorString_addr_loop List.map List.concat];
    [reflexivity|].
  rewrite (c_str_no_nul _ (IPAddress_toString_plain ip)), IH. reflexivity.
Qed.

Lemma join_with_concat (ips : list text) (first : text) :
  join_with " " (first :: ips)
  = first ++ List.concat (List.map (fun t => " "%char :: t) ips).
Proof.
  revert first; induction ips as [|t ips IH]; intros first.
  - cbn. rewrite app_nil_r. reflexivity.
  - change (join_with " " (first :: t :: ips))
      with (first ++ " "%char :: join_with " " (t :: ips)).
    rewrite IH. reflexivity.
Qed.

(** X15. [toIPVectorString] writes the addresses with single blanks
    between them and none at either end (the empty text for no address),
    and its overload for 32-bit addresses writes what the [IPAddress]
    overload writes for the same IPv4 addresses. *)
Theorem toIPVectorString_join :
  (forall ips, toIPVectorString ips = join_with " " (List.map IPAddress.toString ips))
  /\ (forall vs, Forall (fun v => 0 <= v < 2 ^ 32) vs ->
                 toIPVectorString_uint32 vs
                 = toIPVectorString (List.map IPAddress.of_uint32 vs)).
Proof.
  split.
  - intros [|ip ips]; [reflexivity|].
    unfold toIPVectorString. cbn [toIPVectorString_addr_loop List.map].
    rewrite join_with_concat, toIPVectorString_addr_loop_join, List.map_map.
    rewrite (c_str_no_nul _ (IPAddress_toString_plain ip)). reflexivity.
  - intros vs F. unfold toIPVectorString_uint32, toIPVectorString.
    generalize (txt ""). induction F as [|v vs Hv _ IH]; intros space; [reflexivity|].
    cbn [toIPVectorString_loop toIPVectorString_addr_loop List.map].
    rewrite (c_str_no_nul _ (IPAddress_toString_plain (IPAddress.of_uint32 v))).
    rewrite IH. unfold IPAddress.toString.
    change (IPAddress.isV6 (IPAddress.of_uint32 v)) with false. cbv iota.
    rewrite toV4_of_uint32 by assumption.
    repeat (rewrite <- app_assoc || rewrite <- app_comm_cons). reflexivity.
Qed.

Lemma toIPVectorString_join_witness :
  toIPVectorString_uint32 [2130706433; 167772161]
  = toIPVectorString (List.map IPAddress.of_uint32 [2130706433; 167772161]).
Proof.
  apply (proj2 toIPVectorString_join [2130706433; 167772161]).
  repeat constructor; vm_compute; discriminate.
Defined.

(** ** parseList: errors *)

Lemma split_on_app (c : ascii) (s1 s2 : text) :
  split_on c (s1 ++ c :: s2) = split_on c s1 ++ split_on c s2.
Proof.
  induction s1 as [|x s1 IH]; cbn [app split_on].
  - rewrite Ascii.eqb_refl. reflexivity.
  - rewrite IH. destruct (Ascii.eqb x c); [reflexivity|].
    pose proof (split_on_length c s1) as L.
    destruct (split_on c s1) as [|piece pieces]; [discriminate L|reflexivity].
Qed.

Lemma parse_each_first_error (pieces : list text) (e : error) :
  parse_each pieces = Throws e ->
  exists before piece after,
    pieces = before ++ piece :: after
    /\ Forall (fun p => exists x, NetworkAddress.parse p = Returns x) before
    /\ NetworkAddress.parse piece = Throws e.
Proof.
  induction pieces as [|piece pieces IH]; cbn [parse_each]; [discriminate|].
  destruct (NetworkAddress.parse piece) as [x|e'|] eqn:P; cbn [bind]; try discriminate.
  - destruct (parse_each pieces) as [xs|e'|]; cbn [bind]; try discriminate.
    intros E; injection E as ->.
    destruct (IH eq_refl) as (before & bad & after & -> & F & B).
    exists (piece :: before), bad, after. repeat split; [|assumption].
    constructor; [exists x; assumption|assumption].
  - intros E; injection E as ->. exists [], piece, pieces.
    repeat split; [constructor|assumption].
Qed.

Lemma parse_each_empty_piece (pieces : list text) (xs : list NetworkAddress.t) :
  In [] pieces -> parse_each pieces <> Returns xs.
Proof.
  intros I E. apply parse_each_pieces in E.
  induction E as [|piece x pieces xs P _ IH]; [contradiction|].
  destruct I as [->|I]; [|exact (IH I)].
  vm_compute in P. discriminate P.
Qed.

Lemma parse_each_throws (before after : list text) (piece : text) (e : error) :
  Forall (fun p => exists x, NetworkAddress.parse p = Returns x) before ->
  NetworkAddress.parse piece = Throws e ->
  parse_each (before ++ piece :: after) = Throws e.
Proof.
  intros F B. induction F as [|p before (x & Hx) _ IH]; cbn [app parse_each].
  - rewrite B. reflexivity.
  - rewrite Hx, IH. reflexivity.
Qed.

(** X16. [parseList] throws an error exactly when some piece between
    commas makes [parse] throw it and every piece before that one parses:
    the error is the one of the first piece that does not parse, whatever
    the pieces after it are. *)
Theorem parseList_first_error (addrs : text) (e : error) :
  NetworkAddress.parseList addrs = Some (Throws e)
  <-> exists before piece after,
        split_on "," addrs = before ++ piece :: after
        /\ Forall (fun p => exists x, NetworkAddress.parse p = Returns x) before
        /\ NetworkAddress.parse piece = Throws e.
Proof.
  rewrite parseList_pieces. split.
  - intros E. injection E as E. apply parse_each_first_error, E.
  - intros (before & piece & after & -> & F & B).
    rewrite (parse_each_throws before after piece e F B). reflexivity.
Qed.

Lemma parseList_first_error_witness :
  exists before piece after,
    split_on "," (txt "1.2.3.4:80,[::1]:x,?") = before ++ piece :: after
    /\ Forall (fun p => exists x, NetworkAddress.parse p = Returns x) before
    /\ NetworkAddress.parse piece = Throws std_invalid_argument.
Proof.
  apply (proj1 (parseList_first_error (txt "1.2.3.4:80,[::1]:x,?") std_invalid_argument)).
  vm_compute. reflexivity.
Defined.

(** X17. [parseList] returns no list for a text with an empty piece: the
    empty text, a text that starts or ends with a comma, and a text with
    two commas in a row. *)
Theorem parseList_empty_piece (xs : list NetworkAddress.t) :
  NetworkAddress.parseList [] <> Some (Returns xs)
  /\ (forall s, NetworkAddress.parseList (","%char :: s) <> Some (Returns xs))
  /\ (forall s, NetworkAddress.parseList (s ++ [","%char]) <> Some (Returns xs))
  /\ (forall s1 s2, NetworkAddress.parseList (s1 ++ ","%char :: ","%char :: s2)
                    <> Some (Returns xs)).
Proof.
  assert (G : forall addrs, In [] (split_on "," addrs) ->
                            NetworkAddress.parseList addrs <> Some (Returns xs)).
  { intros addrs I E. rewrite parseList_pieces in E. injection E as E.
    exact (parse_each_empty_piece _ _ I E). }
  repeat split; intros; apply G.
  - left. reflexivity.
  - left. reflexivity.
  - rewrite split_on_app. apply in_or_app. right. left. reflexivity.
  - rewrite split_on_app. apply in_or_app. right. left. reflexivity.
Qed.
